(** * SacredGeo: the composition engine and the animation driver

    A shallow embedding of the custom-compositions module
    ([create_layered_flower_of_life], [create_mandala_from_polygons],
    [create_platonic_solid_constellation], [combine_patterns]) and of the
    parameter-evolution animation driver ([animate_pattern_evolution]).

    Conventions.
    - Python floats are modelled by the real numbers [R]: the trigonometric
      identities the module relies on are exact there, and rounding is not
      modelled.  Python ints are [Z]; where a float is divided by an int,
      the [OverflowError] of an int that has no float is modelled with the
      [ZeroDivisionError].
    - Python dicts with string keys are [gmap string _].
    - A Python call either returns or raises; the generators of the core
      and shapes modules are called through an interface, and each call is
      recorded, so that "before any generation occurs" is a statement about
      the recorded calls. *)

From Stdlib Require Import Reals Lra.
From stdpp Require Import gmap strings list fin_maps.

(** ** Python exceptions and the call-recording error monad *)

Inductive exn : Type :=
| ValueError (msg : string)
| ZeroDivisionError
| IndexError
| KeyError (key : string)
| InvalidParameter (msg : string)
| OverflowError (msg : string).

(** A computation of type [M E A] has run to completion: it carries the
    events (generator calls, plot calls) it performed, in order, and either
    the exception that stopped it or its return value. *)
Definition M (E A : Type) : Type := (list E * (exn + A))%type.

Definition ret {E A} (x : A) : M E A := ([], inr x).

Definition raise {E A} (e : exn) : M E A := ([], inl e).

Definition emit {E} (ev : E) : M E unit := ([ev], inr tt).

Definition bind {E A B} (m : M E A) (k : A -> M E B) : M E B :=
  match m with
  | (t, inl e) => (t, inl e)
  | (t, inr x) => let '(t', r) := k x in (t ++ t', r)
  end.

Definition lift {E A} (r : exn + A) : M E A := ([], r).

Definition events {E A} (m : M E A) : list E := fst m.
Definition outcome {E A} (m : M E A) : exn + A := snd m.

Declare Scope py_scope.
Delimit Scope py_scope with py.
Notation "x <- m ;; k" := (bind m (fun x => k))
  (at level 100, m at next level, right associativity) : py_scope.
Notation "m ;;; k" := (bind m (fun _ => k))
  (at level 100, right associativity) : py_scope.
Open Scope py_scope.

(** [for x in l: s = body(s, x)] *)
Fixpoint for_each {E A S} (l : list A) (body : S -> A -> M E S) (s : S)
  : M E S :=
  match l with
  | [] => ret s
  | x :: l' => s' <- body s x ;; for_each l' body s'
  end.

(** [range(n)] for a Python int [n]: empty when [n <= 0]. *)
Definition range (n : Z) : list nat := seq 0 (Z.to_nat n).

(** Dividing a float by an int converts the int to a float first, and an
    int that rounds to [2^1024] or beyond has no float: the conversion
    raises [OverflowError].  The largest float is [2^1024 - 2^971], and
    from half-way between it and [2^1024] on ints round up. *)
Definition float_int_limit : Z := (2 ^ 1024 - 2 ^ 970)%Z.
Arguments float_int_limit : simpl never.

Definition float_overflow_message : string :=
  "int too large to convert to float".

(** [l[i]] *)
Definition index {E A} (l : list A) (i : nat) : M E A :=
  match l !! i with
  | Some x => ret x
  | None => raise IndexError
  end.

(** ** Compositions

    [Composition = Dict[str, List[Any]]]. *)

Abbreviation Composition A := (gmap string (list A)).

(** [d.get(key, [])] *)
Definition get_list {A} (d : Composition A) (key : string) : list A :=
  default [] (d !! key).

Definition combine_patterns {A} (pattern1_data pattern2_data : Composition A)
  : Composition A :=
  <["circles" := get_list pattern1_data "circles" ++ get_list pattern2_data "circles"]>
  (<["lines" := get_list pattern1_data "lines" ++ get_list pattern2_data "lines"]>
  (<["polygons" := get_list pattern1_data "polygons" ++ get_list pattern2_data "polygons"]>
  (<["3d_shapes" := get_list pattern1_data "3d_shapes" ++ get_list pattern2_data "3d_shapes"]>
   ∅))).

(** The four categories [combine_patterns] knows. *)
Definition categories : gset string :=
  {["circles"; "lines"; "polygons"; "3d_shapes"]}.

(** ** Plane and space geometry over the reals *)

Abbreviation point := (R * R)%type.
Abbreviation point3 := (R * R * R)%type.

(** A sampled curve or a polygon: an [np.ndarray] of 2D points. *)
Abbreviation shape := (list point).

(** Rotation of the plane by the angle [a] about the point [g]. *)
Definition rotate_about (g : point) (a : R) (p : point) : point :=
  (g.1 + (cos a * (p.1 - g.1) - sin a * (p.2 - g.2)),
   g.2 + (sin a * (p.1 - g.1) + cos a * (p.2 - g.2)))%R.

Definition rotate_shape (g : point) (a : R) (s : shape) : shape :=
  map (rotate_about g a) s.

(** ** The core generators

    [core/core.py] is not part of the sources at hand; its primitives are
    modelled from the specification. *)

Module Core.

(** Modelled from the spec: [create_circle] of [core/core.py] is missing.
    "[circle(center, radius, num_points)]: ordered sequence of [num_points]
    coordinates evenly spaced by angle [2*pi/num_points] ...  Fails with
    [InvalidParameter] if [radius <= 0] or [num_points < 3]." *)
Definition create_circle (center : point) (radius : R) (num_points : Z)
  : exn + shape :=
  if Rle_dec radius 0 then inl (InvalidParameter "radius")
  else if (num_points <? 3)%Z then inl (InvalidParameter "num_points")
  else inr (map (fun k : nat =>
                   (center.1 + radius * cos (INR k * (2 * PI / IZR num_points)),
                    center.2 + radius * sin (INR k * (2 * PI / IZR num_points)))%R)
                (range num_points)).

(** Modelled from the spec: [create_regular_polygon] of [core/core.py] is
    missing.  "[regular_polygon(center, radius, sides, rotation=0)]:
    [sides] vertices on the circumscribed circle of given [radius],
    starting at angle [rotation], evenly spaced by [2*pi/sides]"; a
    non-positive radius and too few sides (fewer than three) are
    [InvalidParameter]. *)
Definition create_regular_polygon (center : point) (radius : R) (sides : Z)
  (rotation : R) : exn + shape :=
  if Rle_dec radius 0 then inl (InvalidParameter "radius")
  else if (sides <? 3)%Z then inl (InvalidParameter "sides")
  else inr (map (fun k : nat =>
                   (center.1 + radius * cos (rotation + INR k * (2 * PI / IZR sides)),
                    center.2 + radius * sin (rotation + INR k * (2 * PI / IZR sides)))%R)
                (range sides)).

(** Modelled from the spec: [create_flower_of_life] of [core/core.py] is
    missing, and the spec leaves its growth rule beyond the first ring
    open.  This is its layer 0 alone, "a single central circle"; it stands
    in where an example needs a generator. *)
Definition central_circle (num_points : Z) (center : point) (radius : R)
  (layers : Z) : exn + list shape :=
  match create_circle center radius num_points with
  | inl e => inl e
  | inr circle => inr [circle]
  end.

End Core.

(** ** Generator calls *)

Inductive call : Type :=
| CallFlowerOfLife (center : point) (radius : R) (layers : Z)
| CallRegularPolygon (center : point) (radius : R) (sides : Z) (rotation : R)
| CallCircle (center : point) (radius : R)
| CallSolid (func_name : string) (center : point3) (radius : R).

(** The generators of [core/core.py] are arguments of the functions that
    import them: [create_flower_of_life(center, radius, layers)],
    [create_regular_polygon(center, radius, sides, rotation)] and
    [create_circle(center, radius)], the last with its default number of
    sample points. *)
Abbreviation flower_generator := (point -> R -> Z -> exn + list shape).
Abbreviation polygon_generator := (point -> R -> Z -> R -> exn + shape).
Abbreviation circle_generator := (point -> R -> exn + shape).

Definition call_flower_of_life (create_flower_of_life : flower_generator)
  (center : point) (radius : R) (layers : Z) : M call (list shape) :=
  emit (CallFlowerOfLife center radius layers) ;;;
  lift (create_flower_of_life center radius layers).

Definition call_regular_polygon (create_regular_polygon : polygon_generator)
  (center : point) (radius : R) (sides : Z) (rotation : R) : M call shape :=
  emit (CallRegularPolygon center radius sides rotation) ;;;
  lift (create_regular_polygon center radius sides rotation).

Definition call_circle (create_circle : circle_generator) (center : point)
  (radius : R) : M call shape :=
  emit (CallCircle center radius) ;;;
  lift (create_circle center radius).

(** ** create_layered_flower_of_life *)

Definition mismatch_message : string :=
  "Mismatch in lengths of radii, layers_per_radius, offsets, or rotations.".

(** The body of the loop, for layer [i]. *)
Definition layered_layer (create_flower_of_life : flower_generator)
  (center : point) (radii : list R) (layers_per_radius : list Z)
  (offsets : list point) (all_circles : list shape) (i : nat)
  : M call (list shape) :=
  off <- index offsets i ;;
  let fol_center_x := (center.1 + off.1)%R in
  let fol_center_y := (center.2 + off.2)%R in
  fol_radius <- index radii i ;;
  fol_growth_layers <- index layers_per_radius i ;;
  current_fol_circles <-
    call_flower_of_life create_flower_of_life (fol_center_x, fol_center_y)
      fol_radius fol_growth_layers ;;
  ret (all_circles ++ current_fol_circles).

(** [rotations] is checked for its length and otherwise unused, as in the
    source. *)
Definition create_layered_flower_of_life
  (create_flower_of_life : flower_generator) (center : point)
  (radii : list R) (layers_per_radius : list Z)
  (offsets : option (list point)) (rotations : option (list R))
  : M call (Composition shape) :=
  let num_fol_layers := length radii in
  let offsets := default (replicate num_fol_layers (0, 0)%R) offsets in
  let rotations := default (replicate num_fol_layers 0%R) rotations in
  if negb (bool_decide (length layers_per_radius = num_fol_layers)
           && bool_decide (length offsets = num_fol_layers)
           && bool_decide (length rotations = num_fol_layers))
  then raise (ValueError mismatch_message)
  else
    all_circles <-
      for_each (seq 0 num_fol_layers)
        (layered_layer create_flower_of_life center radii layers_per_radius
           offsets) [] ;;
    ret (<["circles" := all_circles]>
         (<["lines" := []]> (<["polygons" := []]> ∅))).

(** The generator calls the loop is to make, in order: centre, radius and
    growth layers of each Flower of Life. *)
Definition layered_args (center : point) (radii : list R)
  (layers_per_radius : list Z) (offsets : list point)
  : list (point * R * Z) :=
  zip_with (fun off rl => ((center.1 + off.1, center.2 + off.2)%R, rl.1, rl.2))
    offsets (zip radii layers_per_radius).

Definition flower_call (a : point * R * Z) : call :=
  CallFlowerOfLife a.1.1 a.1.2 a.2.

(** One turn of the loop, on the arguments of its generator call. *)
Definition layered_step (create_flower_of_life : flower_generator)
  (all_circles : list shape) (a : point * R * Z) : M call (list shape) :=
  current <- call_flower_of_life create_flower_of_life a.1.1 a.1.2 a.2 ;;
  ret (all_circles ++ current).

(** ** create_mandala_from_polygons *)

(** An element definition is a dict that the function reads only through
    [.get(key, default)]; each key it reads is a field, [None] when the key
    is absent. *)
Record element_def : Type := {
  el_type : option string;
  el_sides : option Z;
  el_radius : option R;
  el_offset_r : option R;
  el_offset_angle : option R;
  el_rotation : option R
}.

(** The default example elements for one segment. *)
Definition default_segment_elements (base_radius : R) : list element_def :=
  [ {| el_type := Some "polygon"; el_sides := Some 6%Z;
       el_radius := Some (0.5 * base_radius / 3)%R;
       el_offset_r := Some (1.0 * base_radius / 3)%R;
       el_offset_angle := Some 0%R; el_rotation := Some (PI / 6)%R |};
    {| el_type := Some "polygon"; el_sides := Some 3%Z;
       el_radius := Some (0.3 * base_radius / 3)%R;
       el_offset_r := Some (1.8 * base_radius / 3)%R;
       el_offset_angle := Some (PI / 24)%R; el_rotation := Some 0%R |};
    {| el_type := Some "circle"; el_sides := None;
       el_radius := Some (0.1 * base_radius / 3)%R;
       el_offset_r := Some (2.5 * base_radius / 3)%R;
       el_offset_angle := Some 0%R; el_rotation := None |} ].

(** The centre of an element in the segment at [current_segment_angle]. *)
Definition element_center (center : point) (current_segment_angle : R)
  (element_def : element_def) : point :=
  let el_offset_r := default 0.0%R (el_offset_r element_def) in
  let el_offset_angle := default 0.0%R (el_offset_angle element_def) in
  let element_center_angle := (current_segment_angle + el_offset_angle)%R in
  let element_center_x := (center.1 + el_offset_r * cos element_center_angle)%R in
  let element_center_y := (center.2 + el_offset_r * sin element_center_angle)%R in
  (element_center_x, element_center_y).

(** The body of the inner loop; the state is [(all_polygons, all_circles)]. *)
Definition mandala_element (create_regular_polygon : polygon_generator)
  (create_circle : circle_generator) (center : point)
  (current_segment_angle : R) (acc : list shape * list shape)
  (element_def : element_def) : M call (list shape * list shape) :=
  let el_radius := default 0.1%R (el_radius element_def) in
  let element_center := element_center center current_segment_angle element_def in
  if bool_decide (el_type element_def = Some "polygon") then
    let sides := default 3%Z (el_sides element_def) in
    let rotation := (default 0.0%R (el_rotation element_def) + current_segment_angle)%R in
    poly <- call_regular_polygon create_regular_polygon element_center el_radius
              sides rotation ;;
    ret (acc.1 ++ [poly], acc.2)
  else if bool_decide (el_type element_def = Some "circle") then
    circ <- call_circle create_circle element_center el_radius ;;
    ret (acc.1, acc.2 ++ [circ])
  else ret acc.

(** The body of the outer loop: segment [i]. *)
Definition mandala_segment (create_regular_polygon : polygon_generator)
  (create_circle : circle_generator) (center : point)
  (segment_angle_step : R) (segment_elements : list element_def)
  (acc : list shape * list shape) (i : nat) : M call (list shape * list shape) :=
  let current_segment_angle := (INR i * segment_angle_step)%R in
  for_each segment_elements
    (mandala_element create_regular_polygon create_circle center
       current_segment_angle) acc.

Definition create_mandala_from_polygons
  (create_regular_polygon : polygon_generator)
  (create_circle : circle_generator) (center : point)
  (num_segments : Z) (segment_elements : option (list element_def))
  (base_radius : R) : M call (Composition shape) :=
  let segment_elements :=
    default (default_segment_elements base_radius) segment_elements in
  if bool_decide (float_int_limit <= Z.abs num_segments)%Z
  then raise (OverflowError float_overflow_message)
  else if bool_decide (num_segments = 0%Z) then raise ZeroDivisionError
  else
    let segment_angle_step := (2 * PI / IZR num_segments)%R in
    acc <- for_each (range num_segments)
             (mandala_segment create_regular_polygon create_circle center
                segment_angle_step segment_elements)
             ([], []) ;;
    ret (<["polygons" := acc.1]>
         (<["circles" := acc.2]> (<["lines" := []]> ∅))).

(** What the function generates for slot [i] alone: the inner loop run on
    empty accumulators. *)
Definition mandala_slot (create_regular_polygon : polygon_generator)
  (create_circle : circle_generator) (center : point)
  (num_segments : Z) (segment_elements : list element_def) (i : nat)
  : M call (list shape * list shape) :=
  mandala_segment create_regular_polygon create_circle center
    (2 * PI / IZR num_segments)%R segment_elements
    ([], []) i.

(** The element types the function knows. *)
Definition is_polygon (element_def : element_def) : bool :=
  bool_decide (el_type element_def = Some "polygon").
Definition is_circle (element_def : element_def) : bool :=
  bool_decide (el_type element_def = Some "circle").
Definition recognized (element_def : element_def) : bool :=
  is_polygon element_def || is_circle element_def.

(** The generator call an element of a recognized type gives rise to in
    the segment at [current_segment_angle]. *)
Definition element_call (center : point) (current_segment_angle : R)
  (element_def : element_def) : call :=
  let el_radius := default 0.1%R (el_radius element_def) in
  let element_center := element_center center current_segment_angle element_def in
  if is_polygon element_def then
    CallRegularPolygon element_center el_radius
      (default 3%Z (el_sides element_def))
      (default 0.0%R (el_rotation element_def) + current_segment_angle)%R
  else CallCircle element_center el_radius.

(** What the generators return for one element: a polygon, a circle, or
    nothing for an element of another type. *)
Definition element_shapes (create_regular_polygon : polygon_generator)
  (create_circle : circle_generator) (center : point)
  (current_segment_angle : R) (element_def : element_def)
  : exn + (list shape * list shape) :=
  let el_radius := default 0.1%R (el_radius element_def) in
  let element_center := element_center center current_segment_angle element_def in
  if is_polygon element_def then
    match create_regular_polygon element_center el_radius
            (default 3%Z (el_sides element_def))
            (default 0.0%R (el_rotation element_def) + current_segment_angle)%R
    with
    | inl e => inl e
    | inr poly => inr ([poly], [])
    end
  else if is_circle element_def then
    match create_circle element_center el_radius with
    | inl e => inl e
    | inr circ => inr ([], [circ])
    end
  else inr ([], []).

(** Appending what a segment generated to the accumulators. *)
Definition extend (acc new : list shape * list shape) : list shape * list shape :=
  (acc.1 ++ new.1, acc.2 ++ new.2).

(** The generator call [ev] raises [e]. *)
Definition generator_raises (create_regular_polygon : polygon_generator)
  (create_circle : circle_generator) (ev : call) (e : exn) : Prop :=
  match ev with
  | CallRegularPolygon center radius sides rotation =>
      create_regular_polygon center radius sides rotation = inl e
  | CallCircle center radius => create_circle center radius = inl e
  | _ => False
  end.

(** A computation that raises only what the generator call it made last
    raised. *)
Definition raises_from_generators {A}
  (create_regular_polygon : polygon_generator)
  (create_circle : circle_generator) (m : M call A) : Prop :=
  forall e, outcome m = inl e ->
    exists ev, last (events m) = Some ev /\
               generator_raises create_regular_polygon create_circle ev e.

(** Centre and radius of the circles asked of the generator. *)
Definition circle_calls (t : list call) : list (point * R) :=
  omap (fun ev => match ev with CallCircle c r => Some (c, r) | _ => None end) t.

(** Two angles with the same cosine and sine. *)
Definition same_angle (a b : R) : Prop := cos a = cos b /\ sin a = sin b.

(** [m'] is [m] turned by [a] about [g]: its circle calls are those of [m]
    with the centres turned, it raises exactly when [m] does, and the
    results are related by [rel]. *)
Definition turned {A} (g : point) (a : R) (rel : A -> A -> Prop)
  (m m' : M call A) : Prop :=
  circle_calls (events m') =
    map (fun cr : point * R => (rotate_about g a cr.1, cr.2))
        (circle_calls (events m)) /\
  match outcome m, outcome m' with
  | inr x, inr x' => rel x x'
  | inl e, inl e' => e = e'
  | _, _ => False
  end.

(** The accumulators of the turned run hold the turned polygons, and as
    many circles. *)
Definition turned_state (g : point) (a : R)
  (acc acc' : list shape * list shape) : Prop :=
  acc'.1 = map (rotate_shape g a) acc.1 /\ length acc'.2 = length acc.2.

(** The core primitives as the mandala calls them, [create_circle] with
    [num_points] samples. *)
Definition core_circle (num_points : Z) : circle_generator :=
  fun center radius => Core.create_circle center radius num_points.

(** Example inputs: a lone circle of radius 1 at the centre, an element
    of an unknown type, and a triangle. *)
Definition lone_circle : element_def :=
  {| el_type := Some "circle"; el_sides := None; el_radius := Some 1%R;
     el_offset_r := None; el_offset_angle := None; el_rotation := None |}.

Definition stray_line : element_def :=
  {| el_type := Some "line"; el_sides := None; el_radius := Some 1%R;
     el_offset_r := Some 2%R; el_offset_angle := None; el_rotation := None |}.

Definition triangle : element_def :=
  {| el_type := Some "polygon"; el_sides := Some 3%Z; el_radius := Some 1%R;
     el_offset_r := Some 2%R; el_offset_angle := Some 0%R;
     el_rotation := Some 0%R |}.

(** ** create_platonic_solid_constellation *)

(** The shapes module as [getattr] sees it: the generators it defines, by
    attribute name.  Each takes [center] and [radius]. *)
Abbreviation shapes_module solid := (gmap string (point3 -> R -> exn + solid)).

Definition unsupported_message (solid_type : string) : string :=
  "Unsupported or unknown solid type: " +:+ solid_type.

(** [import_shapes] is the outcome of importing
    [sacred_geometry.shapes.shapes]: [None] is an [ImportError]. *)
Definition resolve_solid {solid} (import_shapes : option (shapes_module solid))
  (solid_type : string) : option (point3 -> R -> exn + solid) :=
  shapes ← import_shapes; shapes !! ("create_" +:+ solid_type).

Definition solid_center (arrangement_radius : R) (angle_step : R) (i : nat)
  : point3 :=
  let constellation_angle := (INR i * angle_step)%R in
  let solid_center_x := (arrangement_radius * cos constellation_angle)%R in
  let solid_center_y := (arrangement_radius * sin constellation_angle)%R in
  let solid_center_z := 0.0%R in
  (solid_center_x, solid_center_y, solid_center_z).

Definition constellation_solid {solid} (solid_type : string)
  (create_solid_func : point3 -> R -> exn + solid)
  (arrangement_radius solid_radius angle_step : R)
  (all_3d_shapes : list solid) (i : nat) : M call (list solid) :=
  let center := solid_center arrangement_radius angle_step i in
  solid_data <-
    (emit (CallSolid ("create_" +:+ solid_type) center solid_radius) ;;;
     lift (create_solid_func center solid_radius)) ;;
  ret (all_3d_shapes ++ [solid_data]).

Definition create_platonic_solid_constellation {solid}
  (import_shapes : option (shapes_module solid)) (solid_type : string)
  (num_solids : Z) (arrangement_radius solid_radius : R)
  (solid_rotation_offset : R) : M call (Composition solid) :=
  match resolve_solid import_shapes solid_type with
  | None => raise (ValueError (unsupported_message solid_type))
  | Some create_solid_func =>
      if bool_decide (float_int_limit <= Z.abs num_solids)%Z
      then raise (OverflowError float_overflow_message)
      else if bool_decide (num_solids = 0%Z) then raise ZeroDivisionError
      else
        let angle_step := (2 * PI / IZR num_solids)%R in
        all_3d_shapes <-
          for_each (range num_solids)
            (constellation_solid solid_type create_solid_func
               arrangement_radius solid_radius angle_step) [] ;;
        ret (<["3d_shapes" := all_3d_shapes]>
             (<["circles" := []]> (<["lines" := []]> (<["polygons" := []]> ∅))))
  end.

(** ** The animation driver *)

(** Values of keyword arguments. *)
Inductive pyval : Type :=
| PFloat (x : R)
| PInt (n : Z)
| PBool (b : bool)
| PStr (s : string)
| PPair (a b : pyval).

(** [numpy.linspace(start, stop, num)] with its default [endpoint=True],
    after numpy's implementation: [arange(0, num)] is scaled by the step
    [delta / div] (by [delta] alone when fewer than two samples are asked
    for, so that nothing is divided by zero), shifted by [start], and the
    last sample is overwritten with [stop]. *)
Definition linspace (start stop : R) (num : Z) : exn + list R :=
  if (num <? 0)%Z then inl (ValueError "Number of samples must be non-negative.")
  else
    let div := (num - 1)%Z in
    let y := map INR (range num) in
    let delta := (stop - start)%R in
    let y :=
      if (0 <? div)%Z then
        let step := (delta / IZR div)%R in
        if Req_dec_T step 0 then map (fun v => v / IZR div * delta)%R y
        else map (fun v => v * step)%R y
      else map (fun v => v * delta)%R y in
    let y := map (fun v => v + start)%R y in
    let y := if (1 <? num)%Z then <[Z.to_nat (num - 1) := stop]> y else y in
    inr y.

(** What a frame does to the axes, as far as the driver is concerned. *)
Inductive draw (pattern : Type) : Type :=
| AxClear
| Generate (current_params : gmap string pyval)
| Plot (pattern_data : pattern) (plot_kwargs : gmap string pyval).
Arguments AxClear {pattern}.
Arguments Generate {pattern} current_params.
Arguments Plot {pattern} pattern_data plot_kwargs.

(** [matplotlib.animation.FuncAnimation(fig, func, frames=n)]: the frame
    function and the frame numbers [range(n)] it is called on, once per
    frame of a pass through the animation. *)
Record FuncAnimation (pattern : Type) : Type := {
  ani_func : nat -> M (draw pattern) unit;
  ani_frames : list nat
}.
Arguments ani_func {pattern} _ _.
Arguments ani_frames {pattern} _.

(** The frames of one pass, in frame order. *)
Definition render {pattern} (ani : FuncAnimation pattern)
  : list (M (draw pattern) unit) :=
  map (ani_func ani) (ani_frames ani).

(** The default colour is set unless the caller chose one. *)
Definition default_plot_kwargs (is_3d : bool) (default_plot_color : string)
  (plot_kwargs : gmap string pyval) : gmap string pyval :=
  if bool_decide (plot_kwargs !! "color" = None)
     && bool_decide (plot_kwargs !! "color_scheme" = None)
  then
    if is_3d then <["facecolors" := PStr default_plot_color]> plot_kwargs
    else <["color" := PStr default_plot_color]> plot_kwargs
  else plot_kwargs.

(** The nested function [update] of [animate_pattern_evolution]; the
    restyling of the axes after [ax.clear()] and the axis limits set after
    plotting belong to the rendering backend and are left out. *)
Definition update {pattern}
  (pattern_generator : gmap string pyval -> exn + pattern)
  (plot_function : pattern -> gmap string pyval -> exn + unit)
  (static_params : gmap string pyval) (animated_param_name : string)
  (param_values : list R) (plot_kwargs : gmap string pyval)
  (frame_num : nat) : M (draw pattern) unit :=
  emit AxClear ;;;
  current_param_value <- index param_values frame_num ;;
  let current_params :=
    <[animated_param_name := PFloat current_param_value]> static_params in
  pattern_data <-
    (emit (Generate current_params) ;;; lift (pattern_generator current_params)) ;;
  emit (Plot pattern_data plot_kwargs) ;;;
  lift (plot_function pattern_data plot_kwargs).

Definition animate_pattern_evolution {pattern}
  (pattern_generator : gmap string pyval -> exn + pattern)
  (static_params : gmap string pyval) (animated_param_name : string)
  (param_start_value param_end_value : R)
  (plot_function : pattern -> gmap string pyval -> exn + unit)
  (frames : Z) (is_3d : bool) (default_plot_color : string)
  (plot_kwargs : gmap string pyval) : exn + FuncAnimation pattern :=
  match linspace param_start_value param_end_value frames with
  | inl e => inl e
  | inr param_values =>
      let plot_kwargs := default_plot_kwargs is_3d default_plot_color plot_kwargs in
      inr {| ani_func :=
               update pattern_generator plot_function static_params
                 animated_param_name param_values plot_kwargs;
             ani_frames := range frames |}
  end.

(** The parameter dict a frame hands to the generator, if it gets there. *)
Definition generated_with {pattern} (frame : M (draw pattern) unit)
  : list (gmap string pyval) :=
  omap (fun ev => match ev with Generate p => Some p | _ => None end)
       (events frame).


(** A solid as the shape generators return it. *)
Record solid_data : Type := {
  vertices : list point3;
  faces : list (list nat);
  edges : list (nat * nat)
}.

Module Shapes.

(** Modelled from the spec: [shapes/shapes.py] is missing.  The octahedron
    from its "standard algebraic vertex set", the six points at [radius]
    from [center] along the axes, with its 8 faces and 12 edges; a
    non-positive radius is [InvalidParameter]. *)
Definition create_octahedron (center : point3) (radius : R)
  : exn + solid_data :=
  if Rle_dec radius 0 then inl (InvalidParameter "radius")
  else
    let '(x, y, z) := center in
    inr {| vertices := [ (x + radius, y, z); (x - radius, y, z);
                         (x, y + radius, z); (x, y - radius, z);
                         (x, y, z + radius); (x, y, z - radius) ]%R;
           faces := [ [0; 2; 4]; [2; 1; 4]; [1; 3; 4]; [3; 0; 4];
                      [2; 0; 5]; [1; 2; 5]; [3; 1; 5]; [0; 3; 5] ]%nat;
           edges := [ (0, 2); (0, 3); (0, 4); (0, 5); (1, 2); (1, 3);
                      (1, 4); (1, 5); (2, 4); (2, 5); (3, 4); (3, 5) ]%nat |}.

(** The module with that one generator. *)
Definition module : shapes_module solid_data :=
  {[ "create_octahedron" := create_octahedron ]}.

End Shapes.

(** The generator call for solid [i] of a constellation. *)
Definition solid_call (solid_type : string)
  (arrangement_radius solid_radius angle_step : R) (i : nat) : call :=
  CallSolid ("create_" +:+ solid_type)
    (solid_center arrangement_radius angle_step i) solid_radius.

(** The result dict of a constellation. *)
Definition constellation_of {solid} (all_3d_shapes : list solid)
  : Composition solid :=
  <["3d_shapes" := all_3d_shapes]>
  (<["circles" := []]> (<["lines" := []]> (<["polygons" := []]> ∅))).

(** [num] evenly spaced values from [start] to [stop], both included. *)
Definition evenly_spaced (start stop : R) (num : Z) : list R :=
  if bool_decide (num = 1%Z) then [start]
  else map (fun i : nat => start + INR i * ((stop - start) / IZR (num - 1)))%R
           (range num).

(** A frame for the value [v] of the animated parameter: the value is
    merged into the static parameters, the generator is invoked, then the
    plot callback. *)
Definition frame_for {pattern}
  (pattern_generator : gmap string pyval -> exn + pattern)
  (plot_function : pattern -> gmap string pyval -> exn + unit)
  (static_params : gmap string pyval) (animated_param_name : string)
  (plot_kwargs : gmap string pyval) (v : R) : M (draw pattern) unit :=
  let current_params := <[animated_param_name := PFloat v]> static_params in
  match pattern_generator current_params with
  | inl e => ([AxClear; Generate current_params], inl e)
  | inr pattern_data =>
      ([AxClear; Generate current_params; Plot pattern_data plot_kwargs],
       plot_function pattern_data plot_kwargs)
  end.

(** Example compositions: with three of the four keys, as
    [create_layered_flower_of_life] and [create_mandala_from_polygons]
    return them, and with all four. *)
Definition three_keys : Composition shape :=
  <["circles" := [[(0, 0)%R]]]> (<["lines" := []]> (<["polygons" := []]> ∅)).

Definition four_keys : Composition shape :=
  <["3d_shapes" := []]> three_keys.

(** Example callbacks: a generator that reads its [radius] parameter and
    draws the central circle of that radius, and a plot function that
    always returns. *)
Definition example_generator (params : gmap string pyval) : exn + list shape :=
  match params !! "radius" with
  | Some (PFloat radius) => Core.central_circle 100 (0, 0)%R radius 0
  | _ => inl (KeyError "radius")
  end.

Definition example_plot (pattern_data : list shape)
  (plot_kwargs : gmap string pyval) : exn + unit :=
  inr tt.
(** ** Saving or showing an animation

    The end of both animation drivers: with a file name the animation is
    saved, a failure being printed and not raised; without one it is
    shown. *)

(** [s.endswith(suffix)] *)
Definition endswith (s suffix : string) : bool :=
  let n := String.length s in
  let m := String.length suffix in
  (m <=? n)%nat && String.eqb (String.substring (n - m) m s) suffix.

Definition writer_name (output_filename : string) : string :=
  if endswith output_filename ".gif" then "pillow" else "ffmpeg".

(** What the end of a driver does to the outside: [ani.save], the two
    [print]s and [plt.show()]. *)
Inductive io : Type :=
| Save (filename writer : string) (fps : Z)
| PrintSaved (filename : string)
| PrintSaveError (e : exn) (writer : string)
| Show.

(** [try: m except Exception as e: handler(e)] *)
Definition try_except {E A} (m : M E A) (handler : exn -> M E A) : M E A :=
  match m with
  | (t, inl e) => let '(t', r) := handler e in (t ++ t', r)
  | (t, inr x) => (t, inr x)
  end.

(** The truth value of an optional string: [None] and the empty string
    are false. *)
Definition truthy (output_filename : option string) : bool :=
  match output_filename with
  | Some filename => negb (String.eqb filename "")
  | None => false
  end.

(** [save] is [ani.save(filename, writer=..., fps=...)] of matplotlib. *)
Definition save_or_show (save : string -> string -> Z -> exn + unit)
  (output_filename : option string) (fps : Z) : M io unit :=
  (if truthy output_filename then
     let filename := default "" output_filename in
     let writer := writer_name filename in
     try_except
       ((emit (Save filename writer fps) ;;; lift (save filename writer fps)) ;;;
        emit (PrintSaved filename))
       (fun e => emit (PrintSaveError e writer))
   else ret tt) ;;;
  if negb (truthy output_filename) then emit Show else ret tt.

(** ** animate_3d_rotation *)

(** What the rotation driver does to the axes: what a frame of the
    evolution driver does, and [ax.view_init] with an azimuth. *)
Inductive view_event (shape_data : Type) : Type :=
| Draw (d : draw shape_data)
| ViewInit (azim : R).
Arguments Draw {shape_data} d.
Arguments ViewInit {shape_data} azim.

(** [FuncAnimation] over the frames of the rotation driver. *)
Record ViewAnimation (shape_data : Type) : Type := {
  view_func : nat -> M (view_event shape_data) unit;
  view_frames : list nat
}.
Arguments view_func {shape_data} _ _.
Arguments view_frames {shape_data} _.

(** [sys.maxsize] of a 64-bit CPython. *)
Definition sys_maxsize : Z := (2 ^ 63 - 1)%Z.

(** The constructor of [FuncAnimation] called with an int for [frames]
    builds the sequence of saved frames as a [collections.deque] of at most
    [frames] items, before any frame is drawn; the deque refuses a negative
    length with a [ValueError] and a length beyond [sys.maxsize] with an
    [OverflowError]. *)
Definition saved_frames_check (frames : Z) : exn + unit :=
  if (frames <? 0)%Z then inl (ValueError "maxlen must be non-negative")
  else if (sys_maxsize <? frames)%Z
  then inl (OverflowError "Python int too large to convert to C ssize_t")
  else inr tt.

Definition render_view {shape_data} (ani : ViewAnimation shape_data)
  : list (M (view_event shape_data) unit) :=
  map (view_func ani) (view_frames ani).

(** The nested function [update] of [animate_3d_rotation]: the shape is
    plotted again and the view turned; the restyling of the axes and the
    restoring of the axis limits are left out. *)
Definition update_rotation {shape_data}
  (plot_function : shape_data -> gmap string pyval -> exn + unit)
  (shape : shape_data) (plot_kwargs : gmap string pyval) (frames : Z)
  (frame_num : nat) : M (view_event shape_data) unit :=
  emit (Draw AxClear) ;;;
  (emit (Draw (Plot shape plot_kwargs)) ;;;
   lift (plot_function shape plot_kwargs)) ;;;
  if bool_decide (frames = 0%Z) then raise ZeroDivisionError
  else
    let azim_angle := (INR frame_num / IZR frames * 360)%R in
    emit (ViewInit azim_angle).

Definition animate_3d_rotation {shape_data}
  (shape_generator : gmap string pyval -> exn + shape_data)
  (static_params : gmap string pyval)
  (plot_function : shape_data -> gmap string pyval -> exn + unit)
  (frames : Z) (rotation_axis : point3) (plot_kwargs : gmap string pyval)
  : M (view_event shape_data) (ViewAnimation shape_data) :=
  shape <- (emit (Draw (Generate static_params)) ;;;
            lift (shape_generator static_params)) ;;
  (emit (Draw (Plot shape plot_kwargs)) ;;;
   lift (plot_function shape plot_kwargs)) ;;;
  lift (saved_frames_check frames) ;;;
  ret {| view_func := update_rotation plot_function shape plot_kwargs frames;
         view_frames := range frames |}.

(** The azimuths a frame sets. *)
Definition azimuths {shape_data} (frame : M (view_event shape_data) unit)
  : list R :=
  omap (fun ev => match ev with ViewInit azim => Some azim | _ => None end)
       (events frame).

(** The parameter dicts handed to the generator in the course of [m]. *)
Definition generations {shape_data A} (m : M (view_event shape_data) A)
  : list (gmap string pyval) :=
  omap (fun ev => match ev with Draw (Generate p) => Some p | _ => None end)
       (events m).

(** Example shape: the unit octahedron about the origin. *)
Definition example_octahedron : solid_data :=
  {| vertices := [ (0 + 1, 0, 0); (0 - 1, 0, 0); (0, 0 + 1, 0);
                   (0, 0 - 1, 0); (0, 0, 0 + 1); (0, 0, 0 - 1) ]%R;
     faces := [ [0; 2; 4]; [2; 1; 4]; [1; 3; 4]; [3; 0; 4];
                [2; 0; 5]; [1; 2; 5]; [3; 1; 5]; [0; 3; 5] ]%nat;
     edges := [ (0, 2); (0, 3); (0, 4); (0, 5); (1, 2); (1, 3);
                (1, 4); (1, 5); (2, 4); (2, 5); (3, 4); (3, 5) ]%nat |}.

(** * Properties *)

(** ** The monad *)

Lemma bind_ret_l {E A B} (x : A) (k : A -> M E B) : bind (ret x) k = k x.
Proof. unfold bind, ret. destruct (k x) as [t r]. reflexivity. Qed.

Lemma bind_ret_r {E A} (m : M E A) : bind m ret = m.
Proof.
  destruct m as [t [e | x]]; unfold bind, ret; [done |].
  by rewrite app_nil_r.
Qed.

Lemma bind_assoc {E A B C} (m : M E A) (f : A -> M E B) (g : B -> M E C) :
  bind (bind m f) g = bind m (fun x => bind (f x) g).
Proof.
  destruct m as [t [e | x]]; unfold bind; [done |].
  destruct (f x) as [t1 [e1 | y]]; [done |].
  destruct (g y) as [t2 r2]. by rewrite app_assoc.
Qed.

Lemma bind_ext {E A B} (m : M E A) (f g : A -> M E B) :
  (forall x, f x = g x) -> bind m f = bind m g.
Proof.
  intros Hfg. destruct m as [t [e | x]]; unfold bind; [done |].
  by rewrite Hfg.
Qed.

Lemma for_each_ext {E A S} (l : list A) (f g : S -> A -> M E S) (s : S) :
  (forall s x, x ∈ l -> f s x = g s x) ->
  for_each l f s = for_each l g s.
Proof.
  revert s. induction l as [| x l IH]; intros s Hfg; simpl; [done |].
  rewrite Hfg by left. apply bind_ext. intros s'.
  apply IH. intros s'' y Hy. apply Hfg. by right.
Qed.

Lemma index_lookup {E A} (l : list A) (i : nat) (x : A) :
  l !! i = Some x -> index (E := E) l i = ret x.
Proof. unfold index. by intros ->. Qed.

(** An index loop over a list is the loop over its elements: no index is
    out of range. *)
Lemma for_each_index_from {E A S} (pre l : list A) (f : S -> A -> M E S) (s : S) :
  for_each (seq (length pre) (length l))
    (fun s i => x <- index (pre ++ l) i ;; f s x) s =
  for_each l f s.
Proof.
  revert pre s. induction l as [| x l IH]; intros pre s; simpl; [done |].
  rewrite (index_lookup (pre ++ x :: l) (length pre) x)
    by (by rewrite lookup_app_r, Nat.sub_diag).
  rewrite bind_ret_l. apply bind_ext. intros s'.
  specialize (IH (pre ++ [x]) s').
  rewrite length_app, Nat.add_1_r, <- app_assoc in IH. exact IH.
Qed.

Lemma for_each_index {E A S} (l : list A) (f : S -> A -> M E S) (s : S) :
  for_each (seq 0 (length l)) (fun s i => x <- index l i ;; f s x) s =
  for_each l f s.
Proof. exact (for_each_index_from [] l f s). Qed.

(** ** create_layered_flower_of_life *)

Section Layered.
Variable create_flower_of_life : flower_generator.
Variable center : point.

Lemma layered_layer_args radii layers_per_radius offsets all_circles i :
  length layers_per_radius = length radii ->
  length offsets = length radii ->
  i ∈ seq 0 (length radii) ->
  layered_layer create_flower_of_life center radii layers_per_radius offsets
    all_circles i =
  (a <- index (layered_args center radii layers_per_radius offsets) i ;;
   layered_step create_flower_of_life all_circles a).
Proof.
  intros Hl Ho Hi. apply elem_of_seq in Hi as [_ Hi]. simpl in Hi.
  destruct (lookup_lt_is_Some_2 radii i Hi) as [r Hr].
  destruct (lookup_lt_is_Some_2 layers_per_radius i ltac:(lia)) as [l Hlk].
  destruct (lookup_lt_is_Some_2 offsets i ltac:(lia)) as [off Hoff].
  unfold layered_layer, layered_args.
  rewrite (index_lookup offsets i off Hoff), bind_ret_l.
  rewrite (index_lookup radii i r Hr), bind_ret_l.
  rewrite (index_lookup layers_per_radius i l Hlk), bind_ret_l.
  rewrite (index_lookup _ i ((center.1 + off.1, center.2 + off.2)%R, r, l)).
  - rewrite bind_ret_l. reflexivity.
  - rewrite lookup_zip_with, Hoff. simpl.
    by rewrite lookup_zip_with, Hr, Hlk.
Qed.

Lemma layered_args_length radii layers_per_radius offsets :
  length layers_per_radius = length radii ->
  length offsets = length radii ->
  length (layered_args center radii layers_per_radius offsets) = length radii.
Proof.
  intros Hl Ho. unfold layered_args.
  rewrite length_zip_with, length_zip. lia.
Qed.

(** With matching lengths the function is the loop over the generator
    arguments followed by the construction of the result: no index is out
    of range. *)
Lemma layered_matched radii layers_per_radius offsets rotations :
  let n := length radii in
  let offs := default (replicate n (0, 0)%R) offsets in
  length layers_per_radius = n ->
  length offs = n ->
  length (default (replicate n 0%R) rotations) = n ->
  create_layered_flower_of_life create_flower_of_life center radii
    layers_per_radius offsets rotations =
  (all_circles <-
     for_each (layered_args center radii layers_per_radius offs)
       (layered_step create_flower_of_life) [] ;;
   ret (<["circles" := all_circles]>
        (<["lines" := []]> (<["polygons" := []]> ∅)))).
Proof.
  intros n offs Hl Ho Hr. unfold create_layered_flower_of_life.
  fold n. fold offs.
  rewrite !bool_decide_eq_true_2 by done. simpl.
  f_equal.
  rewrite <- (for_each_index (layered_args center radii layers_per_radius offs)
             (layered_step create_flower_of_life)).
  rewrite layered_args_length by done.
  apply for_each_ext. intros s i Hi. by apply layered_layer_args.
Qed.

Lemma layered_step_run all_circles a :
  layered_step create_flower_of_life all_circles a =
  ([flower_call a],
   match create_flower_of_life a.1.1 a.1.2 a.2 with
   | inl e => inl e
   | inr current => inr (all_circles ++ current)
   end).
Proof.
  unfold layered_step, call_flower_of_life, emit, lift, bind, ret, flower_call.
  by destruct (create_flower_of_life _ _ _).
Qed.

(** The loop calls the generator on the arguments in order, and stops at
    the first call that raises, with the exception of that call. *)
Lemma layer_loop_run args all_circles :
  let m := for_each args (layered_step create_flower_of_life) all_circles in
  events m `prefix_of` map flower_call args /\
  head (events m) = head (map flower_call args) /\
  (forall all, outcome m = inr all -> events m = map flower_call args) /\
  (forall e, outcome m = inl e ->
     exists a, a ∈ args /\ last (events m) = Some (flower_call a) /\
               create_flower_of_life a.1.1 a.1.2 a.2 = inl e).
Proof.
  revert all_circles. induction args as [| a args IH]; intros all_circles.
  { simpl. split; [done | split; [done | split; [done |]]]. intros e [=]. }
  simpl. rewrite layered_step_run.
  destruct (create_flower_of_life a.1.1 a.1.2 a.2) as [e | current] eqn:Hgen.
  - unfold bind, events, outcome. simpl.
    split; [| split; [done | split]].
    + by apply prefix_cons, prefix_nil.
    + intros all [=].
    + intros e' [= <-]. exists a. split; [left | done].
  - destruct (IH (all_circles ++ current)) as (Hpre & _ & Hok & Herr).
    unfold bind.
    destruct (for_each args (layered_step create_flower_of_life)
              (all_circles ++ current))
      as [t r] eqn:Hrest.
    unfold events, outcome in *. simpl in *.
    split; [| split; [done | split]].
    + by apply prefix_cons.
    + intros all Hr. by rewrite (Hok all Hr).
    + intros e Hr. destruct (Herr e Hr) as (a' & Hin & Hlast & Ha').
      exists a'. split; [by right |]. split; [| done].
      destruct t as [| ev t]; [done |]. exact Hlast.
Qed.

(** A loop that raises has called the generator for the layers up to the
    one it refused, each of them generated, and for none after it. *)
Lemma layer_loop_raised args all_circles e :
  let m := for_each args (layered_step create_flower_of_life) all_circles in
  outcome m = inl e ->
  exists pre a post,
    args = pre ++ a :: post /\
    events m = map flower_call (pre ++ [a]) /\
    create_flower_of_life a.1.1 a.1.2 a.2 = inl e /\
    Forall (fun b => exists circles,
              create_flower_of_life b.1.1 b.1.2 b.2 = inr circles) pre.
Proof.
  revert all_circles. induction args as [| a args IH]; intros all_circles m;
    subst m; [done |].
  simpl. rewrite layered_step_run.
  destruct (create_flower_of_life a.1.1 a.1.2 a.2) as [e' | current] eqn:Hgen.
  - unfold bind, events, outcome. simpl. intros [= <-].
    exists [], a, args. done.
  - specialize (IH (all_circles ++ current)). unfold bind.
    destruct (for_each args (layered_step create_flower_of_life)
              (all_circles ++ current))
      as [t r] eqn:Hrest.
    unfold events, outcome in *. simpl in *. intros Hr.
    destruct (IH Hr) as (pre & a' & post & -> & -> & Ha' & Hpre).
    exists (a :: pre), a', post. split; [done |]. split; [done |].
    split; [done |]. constructor; [by exists current | done].
Qed.
End Layered.

(** ** combine_patterns *)

Section Combine.
Context {A : Type}.
Implicit Types p q r : Composition A.

Lemma elem_of_categories (k : string) :
  k ∈ categories <->
  k = "circles" \/ k = "lines" \/ k = "polygons" \/ k = "3d_shapes".
Proof.
  unfold categories. rewrite !elem_of_union, !elem_of_singleton. tauto.
Qed.

Lemma combine_lookup p q (k : string) :
  combine_patterns p q !! k =
  if decide (k ∈ categories) then Some (get_list p k ++ get_list q k)
  else None.
Proof.
  unfold combine_patterns.
  destruct (decide (k ∈ categories)) as [Hin | Hout].
  - apply elem_of_categories in Hin.
    destruct Hin as [-> | [-> | [-> | ->]]]; by simplify_map_eq.
  - rewrite elem_of_categories in Hout.
    rewrite !lookup_insert_ne, lookup_empty; [done | intros <-; tauto ..].
Qed.

Lemma combine_get_list p q (k : string) :
  k ∈ categories ->
  get_list (combine_patterns p q) k = get_list p k ++ get_list q k.
Proof.
  intros Hin. unfold get_list at 1. rewrite combine_lookup.
  by rewrite decide_True.
Qed.

Lemma combine_dom p q : dom (combine_patterns p q) = categories.
Proof.
  apply set_eq. intros k. rewrite elem_of_dom, combine_lookup.
  destruct (decide (k ∈ categories)) as [Hin | Hout].
  - split; [done | by eexists].
  - split; [by intros [? ?] | done].
Qed.

Lemma get_list_empty (k : string) : get_list (∅ : Composition A) k = [].
Proof. unfold get_list. by rewrite lookup_empty. Qed.

Lemma combine_fixes_full p e :
  (forall k, k ∈ categories -> get_list e k = []) ->
  dom p = categories ->
  combine_patterns p e = p /\ combine_patterns e p = p.
Proof.
  intros He Hdom.
  assert (Hp : forall k, p !! k =
            if decide (k ∈ categories) then Some (get_list p k) else None).
  { intros k. destruct (decide (k ∈ categories)) as [Hin | Hout].
    - rewrite <- Hdom in Hin. apply elem_of_dom in Hin as [l Hl].
      unfold get_list. by rewrite Hl.
    - rewrite <- Hdom in Hout. by apply not_elem_of_dom. }
  split; apply map_eq; intros k; rewrite combine_lookup, (Hp k);
    destruct (decide (k ∈ categories)) as [Hin | Hout]; try done;
    rewrite (He k Hin); by rewrite ?app_nil_r.
Qed.

(** C2: [combine_patterns] is associative. *)
Theorem combine_patterns_assoc p q r :
  combine_patterns (combine_patterns p q) r =
  combine_patterns p (combine_patterns q r).
Proof.
  apply map_eq. intros k. rewrite !combine_lookup.
  destruct (decide (k ∈ categories)) as [Hin | Hout]; [| done].
  by rewrite !combine_get_list, app_assoc.
Qed.

(** C9: the result of [combine_patterns] has exactly the four category
    keys; under each it holds the first input's list followed by the
    second's, an absent key counting as the empty list; every other key
    of the inputs is dropped. *)
Theorem combine_patterns_keys p q :
  dom (combine_patterns p q) = categories /\
  (forall k, k ∈ categories ->
     combine_patterns p q !! k =
     Some (default [] (p !! k) ++ default [] (q !! k))) /\
  (forall k, k ∉ categories -> combine_patterns p q !! k = None).
Proof.
  split; [apply combine_dom |].
  split; intros k Hk; rewrite combine_lookup.
  - by rewrite decide_True.
  - by rewrite decide_False.
Qed.

(** C3, as amended: combining with an empty composition (no key, or
    empty lists under the categories), on either side, keeps the lists of
    all four categories, and gives back the composition itself exactly
    when its keys are the four categories. *)
Theorem combine_patterns_empty p e :
  (forall k, k ∈ categories -> get_list e k = []) ->
  (combine_patterns p e = p <-> dom p = categories) /\
  (combine_patterns e p = p <-> dom p = categories) /\
  (forall k, k ∈ categories ->
     get_list (combine_patterns p e) k = get_list p k /\
     get_list (combine_patterns e p) k = get_list p k).
Proof.
  intros He. repeat split.
  - intros H. rewrite <- H at 1. apply combine_dom.
  - intros H. by apply combine_fixes_full.
  - intros H. rewrite <- H at 1. apply combine_dom.
  - intros H. by apply combine_fixes_full.
  - rewrite combine_get_list, He by done. apply app_nil_r.
  - by rewrite combine_get_list, He by done.
Qed.
End Combine.

Lemma four_keys_dom : dom four_keys = categories.
Proof.
  unfold four_keys, three_keys, categories.
  rewrite !dom_insert_L, dom_empty_L. set_solver.
Qed.

Lemma combine_patterns_keys_witness :
  combine_patterns three_keys ∅ !! "3d_shapes" = Some [].
Proof.
  assert (Hin : "3d_shapes" ∈ categories) by (apply elem_of_categories; tauto).
  exact (proj1 (proj2 (combine_patterns_keys three_keys ∅)) "3d_shapes" Hin).
Defined.

(** C3 fails as stated: the empty composition is not a right identity on a
    composition that lacks one of the four keys. *)
Lemma combine_patterns_empty_counterexample :
  combine_patterns three_keys ∅ <> three_keys.
Proof.
  intros H.
  assert (Hl : combine_patterns three_keys ∅ !! "3d_shapes" = three_keys !! "3d_shapes")
    by (by rewrite H).
  rewrite combine_lookup in Hl. unfold three_keys in Hl.
  by simplify_map_eq.
Qed.

Lemma combine_patterns_empty_witness :
  combine_patterns four_keys ∅ = four_keys /\
  get_list (combine_patterns ∅ three_keys) "circles" = [[(0, 0)%R]].
Proof.
  assert (He : forall k, k ∈ categories -> get_list (∅ : Composition shape) k = [])
    by (intros; apply get_list_empty).
  split.
  - exact (proj2 (proj1 (combine_patterns_empty four_keys ∅ He)) four_keys_dom).
  - assert (Hin : "circles" ∈ categories) by (apply elem_of_categories; tauto).
    exact (proj2 (proj2 (proj2 (combine_patterns_empty three_keys ∅ He))
                    "circles" Hin)).
Defined.

(** C4: when [layers_per_radius], [offsets] or [rotations] differs in
    length from [radii], the function raises its length-mismatch error (a
    [ValueError], the configuration error of this module) without having
    called the Flower of Life generator, and so without any result. *)
Theorem layered_mismatch_fails_fast (create_flower_of_life : flower_generator)
  (center : point) (radii : list R) (layers_per_radius : list Z)
  (offsets : option (list point)) (rotations : option (list R)) :
  length layers_per_radius <> length radii \/
  (exists o, offsets = Some o /\ length o <> length radii) \/
  (exists r, rotations = Some r /\ length r <> length radii) ->
  let m := create_layered_flower_of_life create_flower_of_life center radii
             layers_per_radius offsets rotations in
  events m = [] /\ outcome m = inl (ValueError mismatch_message).
Proof.
  intros H m. subst m. unfold create_layered_flower_of_life.
  destruct H as [H | [(o & -> & H) | (r & -> & H)]]; simpl;
    rewrite (bool_decide_eq_false_2 _ H); simpl;
    rewrite ?andb_false_r; done.
Qed.

Lemma layered_mismatch_fails_fast_witness :
  let m := create_layered_flower_of_life (Core.central_circle 100) (0, 0)%R
             [1; 0.5]%R [2%Z] None None in
  events m = [] /\ outcome m = inl (ValueError mismatch_message).
Proof.
  apply layered_mismatch_fails_fast. left. simpl. lia.
Defined.

(** ** create_mandala_from_polygons *)

Lemma extend_nil_r (acc : list shape * list shape) : extend acc ([], []) = acc.
Proof. destruct acc. unfold extend. simpl. by rewrite !app_nil_r. Qed.

Lemma extend_assoc (a b c : list shape * list shape) :
  extend (extend a b) c = extend a (extend b c).
Proof. unfold extend. simpl. by rewrite !app_assoc. Qed.

Lemma outcome_bind_inr {E A B} (m : M E A) (k : A -> M E B) (y : B) :
  outcome (bind m k) = inr y ->
  exists x, outcome m = inr x /\ outcome (k x) = inr y /\
            events (bind m k) = events m ++ events (k x).
Proof.
  destruct m as [t [e | x]]; unfold bind, outcome, events; simpl; [done |].
  destruct (k x) as [t' r] eqn:Hk. simpl. intros ->. exists x.
  rewrite Hk. done.
Qed.

Section Mandala.
Variable create_regular_polygon : polygon_generator.
Variable create_circle : circle_generator.
Variable center : point.

Lemma mandala_element_run angle acc element_def :
  mandala_element create_regular_polygon create_circle center angle acc
    element_def =
  (if recognized element_def then [element_call center angle element_def]
   else [],
   match element_shapes create_regular_polygon create_circle center angle
           element_def with
   | inl e => inl e
   | inr new => inr (extend acc new)
   end).
Proof.
  unfold mandala_element, element_shapes, element_call, recognized.
  fold (is_polygon element_def). fold (is_circle element_def).
  destruct (is_polygon element_def); simpl.
  - unfold call_regular_polygon, emit, lift, bind, ret, extend.
    destruct (create_regular_polygon _ _ _ _); simpl; [done |].
    by rewrite app_nil_r.
  - destruct (is_circle element_def); simpl.
    + unfold call_circle, emit, lift, bind, ret, extend.
      destruct (create_circle _ _); simpl; [done |].
      by rewrite app_nil_r.
    + by rewrite extend_nil_r.
Qed.

(** An element of an unknown type changes nothing and raises nothing. *)
Lemma mandala_element_skip angle acc element_def :
  recognized element_def = false ->
  mandala_element create_regular_polygon create_circle center angle acc
    element_def = ret acc.
Proof.
  intros H. rewrite mandala_element_run, H.
  unfold element_shapes. unfold recognized in H.
  apply orb_false_elim in H as [-> ->]. by rewrite extend_nil_r.
Qed.

Lemma segment_skip angle specs acc :
  for_each specs
    (mandala_element create_regular_polygon create_circle center angle) acc =
  for_each (List.filter recognized specs)
    (mandala_element create_regular_polygon create_circle center angle) acc.
Proof.
  revert acc. induction specs as [| e specs IH]; intros acc; simpl; [done |].
  destruct (recognized e) eqn:He; simpl.
  - apply bind_ext. intros acc'. apply IH.
  - rewrite mandala_element_skip, bind_ret_l by done. apply IH.
Qed.

(** A segment that completes has called a generator once for each element
    of a known type, in order, and has gained one polygon for each polygon
    element and one circle for each circle element. *)
Lemma segment_run angle specs acc r :
  let m := for_each specs
             (mandala_element create_regular_polygon create_circle center angle)
             acc in
  outcome m = inr r ->
  events m = map (element_call center angle) (List.filter recognized specs) /\
  length r.1 = (length acc.1 + length (List.filter is_polygon specs))%nat /\
  length r.2 = (length acc.2 + length (List.filter is_circle specs))%nat.
Proof.
  revert acc. induction specs as [| e specs IH]; intros acc m Hm; subst m.
  { simpl in *. injection Hm as <-. split; [done | split; lia]. }
  simpl in Hm. apply outcome_bind_inr in Hm as (acc' & He & Hrest & Hev).
  simpl. rewrite Hev. destruct (IH acc' Hrest) as (-> & H1 & H2).
  rewrite mandala_element_run in He |- *. unfold events, outcome in *.
  simpl in *.
  destruct (element_shapes _ _ _ _ e) as [x | new] eqn:Hnew; [done |].
  injection He as <-. unfold element_shapes, recognized in *.
  destruct (is_polygon e) eqn:Hp, (is_circle e) eqn:Hc; simpl in *.
  { apply bool_decide_eq_true in Hp, Hc. congruence. }
  all: repeat match goal with
    | H : match ?g with inl _ => _ | inr _ => _ end = inr _ |- _ =>
        destruct g; [done |]; injection H as <-
    | H : inr _ = inr _ |- _ => injection H as <-
    end.
  all: simpl in *; rewrite ?length_app in *; simpl in *.
  all: split; [done | split; lia].
Qed.

(** A segment only appends to the accumulators: what it adds is what it
    generates on empty ones. *)
Lemma segment_extend angle specs acc acc' :
  for_each specs
    (mandala_element create_regular_polygon create_circle center angle)
    (extend acc acc') =
  (r <- for_each specs
          (mandala_element create_regular_polygon create_circle center angle)
          acc' ;;
   ret (extend acc r)).
Proof.
  revert acc'. induction specs as [| e specs IH]; intros acc'; simpl.
  { reflexivity. }
  rewrite bind_assoc, !mandala_element_run.
  destruct (element_shapes _ _ _ _ e) as [x | new]; [done |].
  unfold bind at 1 3. rewrite extend_assoc, IH. done.
Qed.

Lemma mandala_segment_slot num_segments specs acc i :
  mandala_segment create_regular_polygon create_circle center
    (2 * PI / IZR num_segments)%R specs acc i =
  (r <- mandala_slot create_regular_polygon create_circle center num_segments
          specs i ;;
   ret (extend acc r)).
Proof.
  unfold mandala_slot, mandala_segment.
  rewrite <- segment_extend. by rewrite extend_nil_r.
Qed.

Lemma segments_run step specs l acc r :
  outcome
    (for_each l
       (mandala_segment create_regular_polygon create_circle center step specs)
       acc) = inr r ->
  length r.1 = (length acc.1 + length l * length (List.filter is_polygon specs))%nat /\
  length r.2 = (length acc.2 + length l * length (List.filter is_circle specs))%nat.
Proof.
  revert acc. induction l as [| i l IH]; intros acc Hm; simpl in *.
  { injection Hm as <-. lia. }
  apply outcome_bind_inr in Hm as (acc' & Hseg & Hrest & _).
  apply segment_run in Hseg as (_ & H1 & H2).
  destruct (IH acc' Hrest) as [H3 H4]. lia.
Qed.

(** The elements of an unknown type can as well be left out. *)
Lemma mandala_skip num_segments specs base_radius :
  create_mandala_from_polygons create_regular_polygon create_circle center
    num_segments (Some specs) base_radius =
  create_mandala_from_polygons create_regular_polygon create_circle center
    num_segments (Some (List.filter recognized specs)) base_radius.
Proof.
  unfold create_mandala_from_polygons. simpl.
  destruct (bool_decide (float_int_limit <= Z.abs num_segments)%Z); [done |].
  destruct (bool_decide (num_segments = 0%Z)); [done |].
  f_equal. apply for_each_ext. intros acc i _.
  unfold mandala_segment. apply segment_skip.
Qed.

(** With a number of segments that has a float and is not zero, the
    function is its loop. *)
Lemma mandala_loop num_segments segment_elements base_radius :
  (Z.abs num_segments < float_int_limit)%Z -> num_segments <> 0%Z ->
  create_mandala_from_polygons create_regular_polygon create_circle center
    num_segments segment_elements base_radius =
  (acc <- for_each (range num_segments)
            (mandala_segment create_regular_polygon create_circle center
               (2 * PI / IZR num_segments)%R
               (default (default_segment_elements base_radius) segment_elements))
            ([], []) ;;
   ret (<["polygons" := acc.1]>
        (<["circles" := acc.2]> (<["lines" := []]> ∅)))).
Proof.
  intros Hlim Hn. unfold create_mandala_from_polygons.
  rewrite (bool_decide_eq_false_2 (float_int_limit <= _)%Z) by lia.
  by rewrite (bool_decide_eq_false_2 (num_segments = 0%Z)).
Qed.

(** A number of segments without a float stops the function before its
    loop. *)
Lemma mandala_overflow num_segments segment_elements base_radius :
  (float_int_limit <= Z.abs num_segments)%Z ->
  create_mandala_from_polygons create_regular_polygon create_circle center
    num_segments segment_elements base_radius =
  raise (OverflowError float_overflow_message).
Proof.
  intros Hlim. unfold create_mandala_from_polygons.
  by rewrite (bool_decide_eq_true_2 (float_int_limit <= _)%Z).
Qed.

Lemma float_int_limit_pos : (0 < float_int_limit)%Z.
Proof. reflexivity. Qed.

(** The mandala is its slots, one after the other. *)
Lemma mandala_by_slots num_segments specs base_radius :
  (Z.abs num_segments < float_int_limit)%Z -> num_segments <> 0%Z ->
  create_mandala_from_polygons create_regular_polygon create_circle center
    num_segments (Some specs) base_radius =
  (acc <- for_each (range num_segments)
            (fun acc i =>
               r <- mandala_slot create_regular_polygon create_circle center
                      num_segments specs i ;;
               ret (extend acc r))
            ([], []) ;;
   ret (<["polygons" := acc.1]>
        (<["circles" := acc.2]> (<["lines" := []]> ∅)))).
Proof.
  intros Hlim Hn. rewrite mandala_loop by done. simpl.
  f_equal. apply for_each_ext. intros acc i _.
  apply mandala_segment_slot.
Qed.
End Mandala.

Section Provenance.
Variable create_regular_polygon : polygon_generator.
Variable create_circle : circle_generator.

Lemma raises_ret {A} (x : A) :
  raises_from_generators create_regular_polygon create_circle (ret x).
Proof. intros e [=]. Qed.

Lemma raises_bind {A B} (m : M call A) (k : A -> M call B) :
  raises_from_generators create_regular_polygon create_circle m ->
  (forall x, raises_from_generators create_regular_polygon create_circle (k x)) ->
  raises_from_generators create_regular_polygon create_circle (bind m k).
Proof.
  intros Hm Hk e. destruct m as [t [e' | x]]; unfold bind.
  - intros [= <-]. exact (Hm e' eq_refl).
  - specialize (Hk x e). destruct (k x) as [t' r]. unfold outcome, events in *.
    simpl in *. intros Hr. destruct (Hk Hr) as (ev & Hlast & Hev).
    exists ev. split; [| done].
    destruct t' as [| ev' t'] using rev_ind; [done |].
    rewrite app_assoc, last_snoc. by rewrite last_snoc in Hlast.
Qed.

Lemma raises_for_each {A S} (l : list A) (f : S -> A -> M call S) (s : S) :
  (forall s x, raises_from_generators create_regular_polygon create_circle (f s x)) ->
  raises_from_generators create_regular_polygon create_circle (for_each l f s).
Proof.
  intros Hf. revert s. induction l as [| x l IH]; intros s; simpl.
  - apply raises_ret.
  - apply raises_bind; [apply Hf | exact IH].
Qed.

Lemma raises_element center angle acc element_def :
  raises_from_generators create_regular_polygon create_circle
    (mandala_element create_regular_polygon create_circle center angle acc
       element_def).
Proof.
  rewrite mandala_element_run. intros e.
  unfold outcome, events, element_shapes, element_call, recognized. simpl.
  destruct (is_polygon element_def); simpl.
  - destruct (create_regular_polygon _ _ _ _) as [e' | poly] eqn:Hgen; [| done].
    intros [= <-]. eexists. split; [reflexivity | exact Hgen].
  - destruct (is_circle element_def); simpl; [| done].
    destruct (create_circle _ _) as [e' | circ] eqn:Hgen; [| done].
    intros [= <-]. eexists. split; [reflexivity | exact Hgen].
Qed.

(** The mandala raises for zero segments, for a number of segments
    without a float, or what a generator raised. *)
Lemma mandala_raises center num_segments segment_elements base_radius e :
  let m := create_mandala_from_polygons create_regular_polygon create_circle
             center num_segments segment_elements base_radius in
  outcome m = inl e ->
  (num_segments = 0%Z /\ e = ZeroDivisionError /\ events m = []) \/
  ((float_int_limit <= Z.abs num_segments)%Z /\
   e = OverflowError float_overflow_message /\ events m = []) \/
  (exists ev, last (events m) = Some ev /\
              generator_raises create_regular_polygon create_circle ev e).
Proof.
  intros m. subst m. unfold create_mandala_from_polygons.
  case_bool_decide as Hlim; [intros [= <-]; right; by left |].
  case_bool_decide as Hn.
  - intros [= <-]. by left.
  - intros He. right. right. revert e He.
    apply raises_bind; [| intros; apply raises_ret].
    apply raises_for_each. intros acc i. unfold mandala_segment.
    apply raises_for_each. intros acc' element_def. apply raises_element.
Qed.
End Provenance.

(** C7 fails as stated: an element of an unknown type raises nothing and
    leaves no trace in the result. *)
Lemma mandala_unknown_type_counterexample :
  create_mandala_from_polygons Core.create_regular_polygon (core_circle 100)
    (0, 0)%R 3 (Some [stray_line]) 3 =
  ([], inr (<["polygons" := []]>
            (<["circles" := []]> (<["lines" := []]> ∅)))).
Proof.
  rewrite mandala_skip. reflexivity.
Qed.

(** C7, as amended: an element whose type is neither polygon nor circle is
    skipped without an error, the mandala being that of the remaining
    elements; a slot that completes has called a generator exactly once
    for each remaining element, in order, and holds one polygon for each
    polygon element and one circle for each circle element; and so a
    mandala that completes holds [num_segments] times as many. *)
Theorem mandala_elements_per_segment
  (create_regular_polygon : polygon_generator)
  (create_circle : circle_generator) (center : point) (num_segments : Z)
  (specs : list element_def) (base_radius : R) :
  let mandala :=
    create_mandala_from_polygons create_regular_polygon create_circle center
      num_segments in
  let slot :=
    mandala_slot create_regular_polygon create_circle center num_segments specs in
  mandala (Some specs) base_radius =
    mandala (Some (List.filter recognized specs)) base_radius /\
  (forall i r, outcome (slot i) = inr r ->
     events (slot i) =
       map (element_call center (INR i * (2 * PI / IZR num_segments))%R)
           (List.filter recognized specs) /\
     length r.1 = length (List.filter is_polygon specs) /\
     length r.2 = length (List.filter is_circle specs)) /\
  (forall comp, outcome (mandala (Some specs) base_radius) = inr comp ->
     exists polygons circles,
       comp !! "polygons" = Some polygons /\
       comp !! "circles" = Some circles /\
       length polygons =
         (Z.to_nat num_segments * length (List.filter is_polygon specs))%nat /\
       length circles =
         (Z.to_nat num_segments * length (List.filter is_circle specs))%nat).
Proof.
  intros mandala slot. split; [apply mandala_skip |]. split.
  - intros i r Hr. subst slot. unfold mandala_slot, mandala_segment in *.
    by apply segment_run in Hr.
  - intros comp Hc. subst mandala. unfold create_mandala_from_polygons in Hc.
    simpl in Hc.
    destruct (bool_decide (float_int_limit <= Z.abs num_segments)%Z); [done |].
    destruct (bool_decide (num_segments = 0%Z)); [done |].
    apply outcome_bind_inr in Hc as (acc & Hacc & Hret & _).
    injection Hret as <-. apply segments_run in Hacc as [H1 H2].
    exists acc.1, acc.2. simplify_map_eq.
    unfold range in *. rewrite length_seq in *. simpl in *. done.
Qed.

Lemma mandala_elements_per_segment_witness :
  exists polygons circles,
    (<["polygons" := []]> (<["circles" := []]> (<["lines" := []]> ∅))
       : Composition shape) !! "polygons" = Some polygons /\
    (<["polygons" := []]> (<["circles" := []]> (<["lines" := []]> ∅))
       : Composition shape) !! "circles" = Some circles /\
    length polygons = (Z.to_nat 3 * length (List.filter is_polygon [stray_line]))%nat /\
    length circles = (Z.to_nat 3 * length (List.filter is_circle [stray_line]))%nat.
Proof.
  apply (proj2 (proj2 (mandala_elements_per_segment
                         Core.create_regular_polygon (core_circle 100)
                         (0, 0)%R 3 [stray_line] 3))).
  rewrite mandala_skip. reflexivity.
Defined.

(** ** Validation of sizes *)

(** C8 fails as stated: with a negative [base_radius] the mandala of a
    lone circle is generated, and returned, without any error. *)
Lemma base_radius_not_validated_counterexample :
  exists circle,
    create_mandala_from_polygons Core.create_regular_polygon (core_circle 100)
      (0, 0)%R 1 (Some [lone_circle]) (-1)%R =
    ([element_call (0, 0)%R (INR 0 * (2 * PI / 1))%R lone_circle],
     inr (<["polygons" := []]>
          (<["circles" := [circle]]> (<["lines" := []]> ∅)))).
Proof.
  rewrite mandala_loop by done. simpl.
  unfold mandala_segment. simpl. rewrite mandala_element_run.
  unfold element_shapes, core_circle, Core.create_circle. simpl.
  destruct (Rle_dec 1 0) as [H | _]; [lra |].
  eexists. reflexivity.
Qed.

Lemma create_circle_refuses (center : point) (radius : R) (num_points : Z) :
  (radius <= 0)%R ->
  Core.create_circle center radius num_points = inl (InvalidParameter "radius").
Proof.
  intros Hr. unfold Core.create_circle. by destruct (Rle_dec radius 0).
Qed.

Lemma create_circle_returns (center : point) (radius : R) (num_points : Z) :
  (0 < radius)%R -> (3 <= num_points)%Z ->
  exists circle, Core.create_circle center radius num_points = inr circle.
Proof.
  intros Hr Hn. unfold Core.create_circle.
  destruct (Rle_dec radius 0); [lra |].
  rewrite (proj2 (Z.ltb_ge num_points 3)) by lia. by eexists.
Qed.

(** With the radii 1 and -1 the first Flower of Life is generated before
    the second is refused, by the generator. *)
Lemma layered_rejects_late :
  create_layered_flower_of_life (Core.central_circle 100) (0, 0)%R
    [1; -1]%R [0; 0]%Z None None =
  ([CallFlowerOfLife (0 + 0, 0 + 0)%R 1 0;
    CallFlowerOfLife (0 + 0, 0 + 0)%R (-1) 0],
   inl (InvalidParameter "radius")).
Proof.
  rewrite layered_matched by reflexivity.
  unfold layered_args. cbn [zip_with zip length replicate default].
  cbv [for_each bind ret layered_step call_flower_of_life emit lift
       Core.central_circle fst snd].
  destruct (create_circle_returns (0 + 0, 0 + 0)%R 1 100) as [circle ->];
    [lra | lia |].
  rewrite create_circle_refuses by lra. reflexivity.
Qed.

(** C8, as amended: the two entry points check no size themselves.
    [create_layered_flower_of_life] hands centre, radius and layer count
    of each layer to the generator, in order and as given, starting with
    the first layer whatever the radii are: when it returns it has called
    the generator for every layer, and when it raises on lists of matching
    lengths it has called it for the layers up to and including the one
    the generator refused, the earlier ones having been generated, and the
    exception is that of this last call.
    [create_mandala_from_polygons] does not look at [base_radius] when the
    segment elements are given, and raises only for zero segments, for a
    number of segments too large for a float, either before any generator
    call, or what the generator call it made last raised. *)
Theorem sizes_are_left_to_the_generators :
  (forall (create_flower_of_life : flower_generator) (center : point)
          (radii : list R) (layers_per_radius : list Z)
          (offsets : list point) (rotations : list R),
     length layers_per_radius = length radii ->
     length offsets = length radii ->
     length rotations = length radii ->
     let m := create_layered_flower_of_life create_flower_of_life center radii
                layers_per_radius (Some offsets) (Some rotations) in
     let args := layered_args center radii layers_per_radius offsets in
     let calls := map flower_call args in
     events m `prefix_of` calls /\
     head (events m) = head calls /\
     (forall comp, outcome m = inr comp -> events m = calls) /\
     (forall e, outcome m = inl e ->
        exists pre a post,
          args = pre ++ a :: post /\
          events m = map flower_call (pre ++ [a]) /\
          last (events m) = Some (flower_call a) /\
          create_flower_of_life a.1.1 a.1.2 a.2 = inl e /\
          Forall (fun b => exists circles,
                    create_flower_of_life b.1.1 b.1.2 b.2 = inr circles) pre)) /\
  (forall (create_regular_polygon : polygon_generator)
          (create_circle : circle_generator) (center : point)
          (num_segments : Z) (specs : list element_def) (b1 b2 : R),
     create_mandala_from_polygons create_regular_polygon create_circle center
       num_segments (Some specs) b1 =
     create_mandala_from_polygons create_regular_polygon create_circle center
       num_segments (Some specs) b2) /\
  (forall (create_regular_polygon : polygon_generator)
          (create_circle : circle_generator) (center : point)
          (num_segments : Z) (segment_elements : option (list element_def))
          (base_radius : R) (e : exn),
     let m := create_mandala_from_polygons create_regular_polygon
                create_circle center num_segments segment_elements
                base_radius in
     outcome m = inl e ->
     (num_segments = 0%Z /\ e = ZeroDivisionError /\ events m = []) \/
     ((float_int_limit <= Z.abs num_segments)%Z /\
      e = OverflowError float_overflow_message /\ events m = []) \/
     (exists ev, last (events m) = Some ev /\
                 generator_raises create_regular_polygon create_circle ev e)).
Proof.
  split; [| split; [reflexivity | intros; by apply mandala_raises]].
  intros gen center radii layers offsets rotations Hl Ho Hr m args calls.
  subst m calls args. rewrite (layered_matched gen center) by done. simpl.
  pose proof (layer_loop_run gen
                (layered_args center radii layers offsets) []) as Hrun.
  pose proof (layer_loop_raised gen
                (layered_args center radii layers offsets) []) as Hstop.
  simpl in Hrun, Hstop. destruct Hrun as (Hpre & Hhead & Hall & _).
  destruct (for_each _ (layered_step gen) []) as [t [e | all]];
    unfold bind, ret, events, outcome in *; simpl in *.
  - split; [done | split; [done | split; [intros comp [=] |]]].
    intros e' [= <-].
    destruct (Hstop e eq_refl) as (pre & a & post & Hargs & -> & Ha & Hgen).
    exists pre, a, post. split; [done |]. split; [done |].
    split; [| done]. rewrite map_app. apply last_snoc.
  - rewrite app_nil_r. split; [done | split; [done | split]].
    + intros comp _. by apply (Hall all).
    + intros e' [=].
Qed.

Lemma sizes_are_left_to_the_generators_witness :
  let m := create_layered_flower_of_life (Core.central_circle 100) (0, 0)%R
             [1; -1]%R [0; 0]%Z (Some [(0, 0); (1, 0)]%R) (Some [0; 0]%R) in
  let args := layered_args (0, 0)%R [1; -1]%R [0; 0]%Z [(0, 0); (1, 0)]%R in
  let calls := map flower_call args in
  events m `prefix_of` calls /\
  head (events m) = head calls /\
  (forall comp, outcome m = inr comp -> events m = calls) /\
  (forall e, outcome m = inl e ->
     exists pre a post,
       args = pre ++ a :: post /\
       events m = map flower_call (pre ++ [a]) /\
       last (events m) = Some (flower_call a) /\
       Core.central_circle 100 a.1.1 a.1.2 a.2 = inl e /\
       Forall (fun b => exists circles,
                 Core.central_circle 100 b.1.1 b.1.2 b.2 = inr circles) pre).
Proof.
  apply (proj1 sizes_are_left_to_the_generators); reflexivity.
Defined.

(** ** Rotational symmetry of the mandala *)

Lemma same_angle_shift (a b x : R) :
  same_angle a b -> same_angle (a + x) (b + x).
Proof.
  intros [Hc Hs]. unfold same_angle.
  by rewrite !cos_plus, !sin_plus, Hc, Hs.
Qed.

Lemma same_angle_eq (a b : R) : a = b -> same_angle a b.
Proof. by intros ->. Qed.

Lemma same_angle_trans (a b c : R) :
  same_angle a b -> same_angle b c -> same_angle a c.
Proof. intros [? ?] [? ?]. split; congruence. Qed.

(** Turning a point given in polar form about [p]: the pole turns, and the
    angle grows by the angle of the rotation. *)
Lemma rotate_polar (g p : point) (a r phi phi' : R) :
  same_angle phi' (phi + a) ->
  ((rotate_about g a p).1 + r * cos phi',
   (rotate_about g a p).2 + r * sin phi')%R =
  rotate_about g a (p.1 + r * cos phi, p.2 + r * sin phi)%R.
Proof.
  intros [Hc Hs]. unfold rotate_about. simpl.
  rewrite Hc, Hs, cos_plus, sin_plus. f_equal; ring.
Qed.

Lemma rotate_about_self (g : point) (a : R) : rotate_about g a g = g.
Proof.
  destruct g as [x y]. unfold rotate_about. simpl. f_equal; ring.
Qed.

Lemma element_center_turned (center : point) (a a' theta : R)
  (element_def : element_def) :
  same_angle a' (a + theta) ->
  element_center center a' element_def =
  rotate_about center theta (element_center center a element_def).
Proof.
  intros Ha. unfold element_center.
  rewrite <- (rotate_polar center center theta _ _
                (a' + default 0.0%R (el_offset_angle element_def))).
  - by rewrite rotate_about_self.
  - eapply same_angle_trans; [by apply same_angle_shift |].
    apply same_angle_eq. ring.
Qed.

(** A regular polygon about a turned centre, started at the turned angle,
    is the turned polygon; the same arguments are refused. *)
Lemma polygon_turned (g p : point) (theta r : R) (sides : Z) (rot rot' : R) :
  same_angle rot' (rot + theta) ->
  Core.create_regular_polygon (rotate_about g theta p) r sides rot' =
  match Core.create_regular_polygon p r sides rot with
  | inl e => inl e
  | inr poly => inr (rotate_shape g theta poly)
  end.
Proof.
  intros Hrot. unfold Core.create_regular_polygon.
  destruct (Rle_dec r 0); [done |].
  destruct (sides <? 3)%Z; [done |].
  f_equal. unfold rotate_shape. rewrite map_map.
  apply map_ext. intros k. apply rotate_polar.
  eapply same_angle_trans; [by apply same_angle_shift |].
  apply same_angle_eq. ring.
Qed.

(** Whether a circle is refused does not depend on its centre. *)
Lemma circle_refused_alike (num_points : Z) (p p' : point) (r : R) :
  match core_circle num_points p r, core_circle num_points p' r with
  | inl e, inl e' => e = e'
  | inr circ, inr circ' => length circ' = length circ
  | _, _ => False
  end.
Proof.
  unfold core_circle, Core.create_circle.
  destruct (Rle_dec r 0); [done |].
  destruct (num_points <? 3)%Z; [done |].
  by rewrite !length_map.
Qed.

Lemma circle_calls_app (t t' : list call) :
  circle_calls (t ++ t') = circle_calls t ++ circle_calls t'.
Proof. unfold circle_calls. apply omap_app. Qed.

Section Turned.
Variable g : point.
Variable theta : R.

Lemma turned_ret {A} (rel : A -> A -> Prop) (x x' : A) :
  rel x x' -> turned g theta rel (ret x) (ret x').
Proof. intros H. split; [done | exact H]. Qed.

Lemma turned_bind {A B} (rel : A -> A -> Prop) (rel' : B -> B -> Prop)
  (m m' : M call A) (k k' : A -> M call B) :
  turned g theta rel m m' ->
  (forall x x', rel x x' -> turned g theta rel' (k x) (k' x')) ->
  turned g theta rel' (bind m k) (bind m' k').
Proof.
  destruct m as [t [e | x]], m' as [t' [e' | x']];
    unfold turned, bind, events, outcome; simpl; intros [Hc Hr] Hk;
    try done.
  specialize (Hk x x' Hr). destruct (k x) as [t1 r1], (k' x') as [t1' r1'].
  unfold turned, events, outcome in Hk. simpl in *. destruct Hk as [Hc1 Hr1].
  split; [| done].
  by rewrite !circle_calls_app, map_app, Hc, Hc1.
Qed.

Lemma turned_for_each {A S} (rel : S -> S -> Prop) (l : list A)
  (f f' : S -> A -> M call S) (s s' : S) :
  (forall s s' x, rel s s' -> turned g theta rel (f s x) (f' s' x)) ->
  rel s s' ->
  turned g theta rel (for_each l f s) (for_each l f' s').
Proof.
  intros Hf. revert s s'. induction l as [| x l IH]; intros s s' Hs; simpl.
  - by apply turned_ret.
  - eapply turned_bind; [by apply Hf | exact IH].
Qed.
End Turned.

Lemma turned_element (num_points : Z) (center : point) (a a' theta : R)
  (acc acc' : list shape * list shape) (element_def : element_def) :
  same_angle a' (a + theta) ->
  turned_state center theta acc acc' ->
  turned center theta (turned_state center theta)
    (mandala_element Core.create_regular_polygon (core_circle num_points)
       center a acc element_def)
    (mandala_element Core.create_regular_polygon (core_circle num_points)
       center a' acc' element_def).
Proof.
  intros Ha [Hp Hc]. rewrite !mandala_element_run.
  unfold turned, events, outcome, element_shapes, element_call, recognized.
  simpl. rewrite (element_center_turned center a a' theta) by done.
  destruct (is_polygon element_def); simpl.
  - split; [done |].
    rewrite (polygon_turned center _ theta _ _
               (default 0.0%R (el_rotation element_def) + a)%R).
    + destruct (Core.create_regular_polygon _ _ _ _); [done |].
      unfold turned_state, extend. simpl.
      by rewrite map_app, Hp, !length_app, Hc.
    + eapply same_angle_trans.
      * rewrite Rplus_comm. by apply same_angle_shift.
      * apply same_angle_eq. ring.
  - destruct (is_circle element_def); simpl.
    + split; [done |].
      pose proof (circle_refused_alike num_points
                    (element_center center a element_def)
                    (rotate_about center theta
                       (element_center center a element_def))
                    (default 0.1%R (el_radius element_def))) as Hcirc.
      destruct (core_circle num_points (element_center _ _ _) _),
        (core_circle num_points (rotate_about _ _ _) _); try done.
      unfold turned_state, extend. simpl.
      by rewrite map_app, Hp, !length_app, Hc.
    + split; [done |]. unfold turned_state, extend. simpl.
      by rewrite !app_nil_r.
Qed.

(** The angle of the slot after [i], slot 0 after the last one, is the
    angle of slot [i] grown by the step, up to a full turn. *)
Lemma next_slot_angle (num_segments : Z) (i : nat) :
  (1 <= num_segments)%Z ->
  (i < Z.to_nat num_segments)%nat ->
  same_angle
    (INR ((i + 1) mod Z.to_nat num_segments) * (2 * PI / IZR num_segments))
    (INR i * (2 * PI / IZR num_segments) + 2 * PI / IZR num_segments).
Proof.
  intros Hn Hi.
  assert (Hpos : (0 < IZR num_segments)%R) by (apply IZR_lt; lia).
  destruct (decide (i + 1 < Z.to_nat num_segments)%nat) as [Hlt | Hge].
  - rewrite Nat.mod_small by done. apply same_angle_eq.
    rewrite plus_INR. simpl. ring.
  - assert (Hlast : (i + 1)%nat = Z.to_nat num_segments) by lia.
    rewrite Hlast, Nat.Div0.mod_same. simpl.
    assert (Hfull : (INR i * (2 * PI / IZR num_segments)
                     + 2 * PI / IZR num_segments = 2 * PI)%R).
    { assert (Hi1 : INR (i + 1) = IZR num_segments).
      { rewrite Hlast, INR_IZR_INZ, Z2Nat.id by lia. done. }
      rewrite plus_INR in Hi1. simpl in Hi1.
      replace (INR i * (2 * PI / IZR num_segments)
               + 2 * PI / IZR num_segments)%R
        with (2 * PI * ((INR i + 1) / IZR num_segments))%R by (field; lra).
      rewrite Hi1. field. lra. }
    rewrite Hfull, Rmult_0_l. split.
    + by rewrite cos_0, cos_2PI.
    + by rewrite sin_0, sin_2PI.
Qed.

Lemma slot_turned (num_points num_segments : Z) (center : point)
  (specs : list element_def) (i : nat) :
  (1 <= num_segments)%Z ->
  (i < Z.to_nat num_segments)%nat ->
  let slot := mandala_slot Core.create_regular_polygon
                (core_circle num_points) center num_segments specs in
  turned center (2 * PI / IZR num_segments) 
    (turned_state center (2 * PI / IZR num_segments))
    (slot i) (slot ((i + 1) mod Z.to_nat num_segments)%nat).
Proof.
  intros Hn Hi slot. subst slot. unfold mandala_slot, mandala_segment.
  apply turned_for_each; [| done].
  intros acc acc' element_def Hacc.
  apply turned_element; [| done]. by apply next_slot_angle.
Qed.

(** On a circle an angle strictly inside the upper half is the only one
    of a full turn with its cosine and sine. *)
Lemma angle_unique (a b : R) :
  (0 < a < PI)%R -> (0 <= b < 2 * PI)%R ->
  cos b = cos a -> sin b = sin a -> b = a.
Proof.
  intros [Ha0 Ha1] [Hb0 Hb1] Hcos Hsin.
  destruct (Rle_lt_dec b PI) as [Hb | Hb].
  - destruct (Rtotal_order b a) as [Hlt | [Heq | Hgt]]; [| done |].
    + pose proof (cos_decreasing_1 b a Hb0 Hb ltac:(lra) ltac:(lra) Hlt). lra.
    + pose proof (cos_decreasing_1 a b ltac:(lra) ltac:(lra) Hb0 Hb Hgt). lra.
  - pose proof (sin_lt_0 b Hb Hb1). pose proof (sin_gt_0 a Ha0 Ha1). lra.
Qed.

(** A twelfth of a turn is not a whole number of hundredths of a turn. *)
Lemma twelfth_is_no_sample (k : nat) :
  (INR k * (2 * PI / 100) <> 2 * PI / 12)%R.
Proof.
  intros H. pose proof PI_RGT_0 as Hpi.
  assert (Hk : (INR k * 12 = 100)%R).
  { apply (Rmult_eq_reg_r (2 * PI / 1200)); [| lra].
    transitivity (2 * PI / 12)%R; [rewrite <- H |]; field. }
  rewrite INR_IZR_INZ, <- mult_IZR in Hk. apply eq_IZR in Hk. lia.
Qed.

(** The slot of a mandala made of the lone circle. *)
Lemma lone_circle_slot (num_points num_segments : Z) (center : point) (i : nat) :
  (3 <= num_points)%Z ->
  let c := element_center center (INR i * (2 * PI / IZR num_segments))
             lone_circle in
  mandala_slot Core.create_regular_polygon (core_circle num_points) center
    num_segments [lone_circle] i =
  ([CallCircle c 1],
   inr ([], [map (fun k : nat =>
                    (c.1 + 1 * cos (INR k * (2 * PI / IZR num_points)),
                     c.2 + 1 * sin (INR k * (2 * PI / IZR num_points)))%R)
                 (range num_points)])).
Proof.
  intros Hnp c. unfold mandala_slot, mandala_segment, for_each.
  rewrite mandala_element_run. unfold element_shapes, element_call, recognized.
  change (is_polygon lone_circle) with false.
  change (is_circle lone_circle) with true.
  cbn [orb]. unfold core_circle, Core.create_circle.
  change (default 0.1%R (el_radius lone_circle)) with 1%R.
  destruct (Rle_dec 1 0) as [H | _]; [lra |].
  rewrite (proj2 (Z.ltb_ge num_points 3)) by lia.
  reflexivity.
Qed.

(** C1 fails as stated: with the 12 segments of the default mandala and a
    circle of 100 samples, the circle of slot 0 turned by a twelfth of a
    turn has a sample point that is none of the sample points of the
    circle generated for slot 1. *)
Lemma mandala_circles_counterexample :
  let slot := mandala_slot Core.create_regular_polygon (core_circle 100)
                (0, 0)%R 12 [lone_circle] in
  exists c0 c1 p,
    outcome (slot 0%nat) = inr ([], [c0]) /\
    outcome (slot 1%nat) = inr ([], [c1]) /\
    p ∈ rotate_shape (0, 0)%R (2 * PI / 12) c0 /\
    p ∉ c1.
Proof.
  intros slot. subst slot.
  rewrite !lone_circle_slot by lia.
  do 3 eexists. split; [reflexivity |]. split; [reflexivity |].
  replace (range 100) with (0%nat :: seq 1 99) at 1 by reflexivity.
  split; [left |].
  intros Hin. apply list_elem_of_In, in_map_iff in Hin as (k & Hk & Hrange).
  apply in_seq in Hrange. unfold rotate_about, element_center in Hk.
  cbn -[INR] in Hk. change (INR 0) with 0%R in Hk.
  rewrite !Rmult_0_l, cos_0, sin_0 in Hk.
  injection Hk as Hx Hy.
  pose proof PI_RGT_0 as Hpi.
  assert (Hk100 : (INR k < 100)%R).
  { rewrite INR_IZR_INZ. apply IZR_lt. simpl in Hrange. lia. }
  apply (twelfth_is_no_sample k).
  apply angle_unique.
  - split; lra.
  - split.
    + apply Rmult_le_pos; [apply pos_INR | lra].
    + apply (Rmult_lt_compat_r (2 * PI / 100)) in Hk100; lra.
  - lra.
  - lra.
Qed.

(** C1, as amended: over the reals, for [num_segments >= 1] and a slot
    [i], turning the polygons generated for slot [i] by
    [2*pi/num_segments] about the centre of the mandala gives exactly the
    polygons generated for slot [(i+1) mod num_segments]; the circles of
    that slot are generated, as many, with the turned centres and the same
    radii, so that they are the turned circles as curves, though not
    sample by sample; and the next slot raises exactly when slot [i]
    does. *)
Theorem mandala_rotational_symmetry (num_points num_segments : Z)
  (center : point) (specs : list element_def) (i : nat) :
  (1 <= num_segments)%Z ->
  (i < Z.to_nat num_segments)%nat ->
  let step := (2 * PI / IZR num_segments)%R in
  let slot := mandala_slot Core.create_regular_polygon
                (core_circle num_points) center num_segments specs in
  let next := ((i + 1) mod Z.to_nat num_segments)%nat in
  (forall polygons circles,
     outcome (slot i) = inr (polygons, circles) ->
     exists circles',
       outcome (slot next) =
         inr (map (rotate_shape center step) polygons, circles') /\
       length circles' = length circles) /\
  circle_calls (events (slot next)) =
    map (fun cr : point * R => (rotate_about center step cr.1, cr.2))
        (circle_calls (events (slot i))) /\
  (forall e, outcome (slot i) = inl e -> outcome (slot next) = inl e).
Proof.
  intros Hn Hi step slot next.
  destruct (slot_turned num_points num_segments center specs i Hn Hi)
    as [Hcalls Hout].
  fold slot next step in Hcalls, Hout.
  split; [| split; [exact Hcalls |]].
  - intros polygons circles Hi'. rewrite Hi' in Hout.
    destruct (outcome (slot next)) as [e | [polygons' circles']]; [done |].
    destruct Hout as [Hp Hc]. simpl in *. subst polygons'.
    by exists circles'.
  - intros e Hi'. rewrite Hi' in Hout.
    destruct (outcome (slot next)) as [e' | r]; [by subst | done].
Qed.

Lemma mandala_rotational_symmetry_witness :
  let step := (2 * PI / 3)%R in
  let slot := mandala_slot Core.create_regular_polygon (core_circle 100)
                (0, 0)%R 3 [triangle; lone_circle] in
  circle_calls (events (slot 0%nat)) =
    map (fun cr : point * R => (rotate_about (0, 0)%R step cr.1, cr.2))
        (circle_calls (events (slot 2%nat))).
Proof.
  apply (mandala_rotational_symmetry 100 3 (0, 0)%R [triangle; lone_circle] 2);
    [lia | simpl; lia].
Defined.

(** ** create_platonic_solid_constellation *)

Section Constellation.
Context {solid : Type}.
Variable solid_type : string.
Variable create_solid_func : point3 -> R -> exn + solid.
Variables arrangement_radius solid_radius angle_step : R.

Lemma constellation_solid_run all_3d_shapes i :
  constellation_solid solid_type create_solid_func arrangement_radius
    solid_radius angle_step all_3d_shapes i =
  ([solid_call solid_type arrangement_radius solid_radius angle_step i],
   match create_solid_func (solid_center arrangement_radius angle_step i)
           solid_radius with
   | inl e => inl e
   | inr solid_data => inr (all_3d_shapes ++ [solid_data])
   end).
Proof.
  unfold constellation_solid, solid_call, emit, lift, bind, ret.
  by destruct (create_solid_func _ _).
Qed.

(** When the generator returns at every place, the loop calls it once for
    each, in order, and gathers what it returns. *)
Lemma constellation_loop_run (l : list nat) all_3d_shapes :
  (forall i, i ∈ l ->
     exists s, create_solid_func
                 (solid_center arrangement_radius angle_step i) solid_radius
               = inr s) ->
  exists shapes,
    for_each l
      (constellation_solid solid_type create_solid_func arrangement_radius
         solid_radius angle_step) all_3d_shapes =
    (map (solid_call solid_type arrangement_radius solid_radius angle_step) l,
     inr (all_3d_shapes ++ shapes)) /\
    Forall2 (fun i s =>
               create_solid_func
                 (solid_center arrangement_radius angle_step i) solid_radius
               = inr s) l shapes.
Proof.
  revert all_3d_shapes. induction l as [| i l IH]; intros acc Hgen.
  { exists []. simpl. by rewrite app_nil_r. }
  destruct (Hgen i) as [s Hs]; [left |].
  destruct (IH (acc ++ [s])) as (shapes & Hrun & Hall).
  { intros j Hj. apply Hgen. by right. }
  exists (s :: shapes). split; [| by constructor].
  simpl. rewrite constellation_solid_run, Hs. unfold bind.
  rewrite Hrun. by rewrite <- app_assoc.
Qed.
End Constellation.

(** Every place of a constellation lies in the plane [z = 0], on the
    circle of the arrangement radius about the origin. *)
Lemma solid_center_on_circle (arrangement_radius angle_step : R) (i : nat) :
  let c := solid_center arrangement_radius angle_step i in
  (c.1.1 * c.1.1 + c.1.2 * c.1.2 = arrangement_radius * arrangement_radius)%R /\
  c.2 = 0%R.
Proof.
  unfold solid_center. simpl. split; [| lra].
  pose proof (sin2_cos2 (INR i * angle_step)) as H. unfold Rsqr in H.
  set (s := sin (INR i * angle_step)) in *.
  set (c := cos (INR i * angle_step)) in *.
  replace (arrangement_radius * c * (arrangement_radius * c)
           + arrangement_radius * s * (arrangement_radius * s))%R
    with (arrangement_radius * arrangement_radius * (s * s + c * c))%R by ring.
  rewrite H. ring.
Qed.

Lemma octahedron_resolves :
  resolve_solid (Some Shapes.module) "octahedron" = Some Shapes.create_octahedron.
Proof. reflexivity. Qed.

(** C6 fails as stated: asked for no solid at all of a type that resolves,
    the function divides by zero instead of returning no solids. *)
Lemma constellation_counterexample :
  create_platonic_solid_constellation (Some Shapes.module) "octahedron" 0
    5 1 (PI / 7) = ([], inl ZeroDivisionError).
Proof.
  unfold create_platonic_solid_constellation.
  by rewrite octahedron_resolves.
Qed.

(** C6, as amended: a solid type for which no generator [create_<type>]
    resolves makes the function raise its unsupported-type error (a
    [ValueError]) with no generator called and no shapes; for a type that
    resolves, [num_solids >= 1] that has a float, and a generator that
    returns at each place, the function calls it once for each place in
    order and returns exactly the [num_solids] solids it generated; the
    places are on the arrangement circle.  For a type that resolves and
    [num_solids = 0], or a [num_solids] too large for a float, the
    function raises for the division, with no generator called. *)
Theorem constellation_resolves_or_fails {solid : Type}
  (import_shapes : option (shapes_module solid)) (solid_type : string)
  (num_solids : Z) (arrangement_radius solid_radius solid_rotation_offset : R) :
  let m := create_platonic_solid_constellation import_shapes solid_type
             num_solids arrangement_radius solid_radius solid_rotation_offset in
  let angle_step := (2 * PI / IZR num_solids)%R in
  (resolve_solid import_shapes solid_type = None ->
   m = ([], inl (ValueError (unsupported_message solid_type)))) /\
  (forall create_solid_func,
     resolve_solid import_shapes solid_type = Some create_solid_func ->
     (1 <= num_solids < float_int_limit)%Z ->
     (forall i, (i < Z.to_nat num_solids)%nat ->
        exists s, create_solid_func
                    (solid_center arrangement_radius angle_step i) solid_radius
                  = inr s) ->
     exists shapes,
       m = (map (solid_call solid_type arrangement_radius solid_radius angle_step)
              (range num_solids),
            inr (constellation_of shapes)) /\
       length shapes = Z.to_nat num_solids /\
       Forall2 (fun i s =>
                  create_solid_func
                    (solid_center arrangement_radius angle_step i) solid_radius
                  = inr s /\
                  let c := solid_center arrangement_radius angle_step i in
                  (c.1.1 * c.1.1 + c.1.2 * c.1.2
                   = arrangement_radius * arrangement_radius)%R /\
                  c.2 = 0%R)
               (range num_solids) shapes) /\
  (forall create_solid_func,
     resolve_solid import_shapes solid_type = Some create_solid_func ->
     (num_solids = 0%Z -> m = ([], inl ZeroDivisionError)) /\
     ((float_int_limit <= Z.abs num_solids)%Z ->
      m = ([], inl (OverflowError float_overflow_message)))).
Proof.
  intros m angle_step. subst m. unfold create_platonic_solid_constellation.
  split; [| split].
  - by intros ->.
  - intros f -> Hn Hgen.
    rewrite (bool_decide_eq_false_2 (float_int_limit <= _)%Z)
      by (rewrite Z.abs_eq; lia).
    rewrite (bool_decide_eq_false_2 (num_solids = 0%Z)) by lia.
    destruct (constellation_loop_run solid_type f arrangement_radius
                solid_radius angle_step (range num_solids) [])
      as (shapes & Hrun & Hall).
    { intros i Hi. apply Hgen. unfold range in Hi.
      apply elem_of_seq in Hi. lia. }
    exists shapes. fold angle_step. rewrite Hrun. simpl.
    split; [by rewrite app_nil_r |]. split.
    + apply Forall2_length in Hall. rewrite <- Hall.
      unfold range. by rewrite length_seq.
    + eapply Forall2_impl; [exact Hall |]. intros i s Hs.
      split; [done |]. apply solid_center_on_circle.
  - intros f ->. split.
    + intros ->. reflexivity.
    + intros Hlim.
      by rewrite (bool_decide_eq_true_2 (float_int_limit <= _)%Z).
Qed.

Lemma constellation_resolves_or_fails_witness :
  create_platonic_solid_constellation (Some Shapes.module) "hexagon" 5 5 1
    (PI / 7) =
  ([], inl (ValueError (unsupported_message "hexagon"))) /\
  exists shapes,
    create_platonic_solid_constellation (Some Shapes.module) "octahedron" 2
      5 1 (PI / 7) =
    (map (solid_call "octahedron" 5 1 (2 * PI / 2)) (range 2),
     inr (constellation_of shapes)) /\
    length shapes = 2%nat.
Proof.
  split.
  - apply (constellation_resolves_or_fails (Some Shapes.module) "hexagon").
    reflexivity.
  - destruct (proj1 (proj2 (constellation_resolves_or_fails
                              (Some Shapes.module) "octahedron" 2 5 1 (PI / 7)))
                Shapes.create_octahedron octahedron_resolves)
      as (shapes & Hrun & Hlen & _).
    + split; [lia | reflexivity].
    + intros i _. unfold Shapes.create_octahedron.
      destruct (Rle_dec 1 0) as [H | _]; [lra |].
      destruct (solid_center 5 (2 * PI / 2) i) as [[x y] z]. by eexists.
    + exists shapes. split; [exact Hrun | exact Hlen].
Defined.

(** C10: the constellation does not depend on [solid_rotation_offset]. *)
Theorem constellation_ignores_rotation_offset {solid : Type}
  (import_shapes : option (shapes_module solid)) (solid_type : string)
  (num_solids : Z) (arrangement_radius solid_radius : R)
  (offset1 offset2 : R) :
  create_platonic_solid_constellation import_shapes solid_type num_solids
    arrangement_radius solid_radius offset1 =
  create_platonic_solid_constellation import_shapes solid_type num_solids
    arrangement_radius solid_radius offset2.
Proof. reflexivity. Qed.

(** ** The animation driver *)

Lemma range_length (n : Z) : length (range n) = Z.to_nat n.
Proof. unfold range. apply length_seq. Qed.

Lemma evenly_spaced_length (start stop : R) (num : Z) :
  (1 <= num)%Z -> length (evenly_spaced start stop num) = Z.to_nat num.
Proof.
  intros Hn. unfold evenly_spaced. case_bool_decide as H1.
  - by subst.
  - by rewrite length_map, range_length.
Qed.

Lemma INR_to_nat (n : Z) : (0 <= n)%Z -> INR (Z.to_nat n) = IZR n.
Proof. intros Hn. by rewrite INR_IZR_INZ, Z2Nat.id. Qed.

(** [numpy.linspace] returns the evenly spaced values, the last of them
    being [stop] already before it is overwritten. *)
Lemma linspace_evenly_spaced (start stop : R) (num : Z) :
  (1 <= num)%Z -> linspace start stop num = inr (evenly_spaced start stop num).
Proof.
  intros Hn. unfold linspace, evenly_spaced.
  rewrite (proj2 (Z.ltb_ge num 0)) by lia.
  case_bool_decide as H1.
  - subst num. simpl. do 2 f_equal. ring.
  - assert (Hdiv : (0 < IZR (num - 1))%R) by (apply IZR_lt; lia).
    rewrite (proj2 (Z.ltb_lt 0 (num - 1))) by lia.
    rewrite (proj2 (Z.ltb_lt 1 num)) by lia.
    f_equal.
    set (f := fun i : nat =>
                (start + INR i * ((stop - start) / IZR (num - 1)))%R).
    assert (Hy : forall y,
               y = map f (range num) ->
               <[Z.to_nat (num - 1) := stop]> y = map f (range num)).
    { intros y ->. apply list_insert_id.
      change (map f (range num)) with (f <$> range num).
      rewrite list_lookup_fmap. unfold range.
      rewrite lookup_seq_lt by lia. simpl. f_equal. unfold f.
      rewrite INR_to_nat by lia. field. lra. }
    apply Hy.
    destruct (Req_dec_T ((stop - start) / IZR (num - 1)) 0) as [Hz | Hnz];
      rewrite !map_map; apply map_ext; intros i; unfold f; field; lra.
Qed.

Section Frames.
Context {pattern : Type}.
Variable pattern_generator : gmap string pyval -> exn + pattern.
Variable plot_function : pattern -> gmap string pyval -> exn + unit.
Variable static_params : gmap string pyval.
Variable animated_param_name : string.
Variable plot_kwargs : gmap string pyval.

(** A frame whose number is in range is the frame for the value at that
    place. *)
Lemma update_frame (param_values : list R) (frame_num : nat) (v : R) :
  param_values !! frame_num = Some v ->
  update pattern_generator plot_function static_params animated_param_name
    param_values plot_kwargs frame_num =
  frame_for pattern_generator plot_function static_params animated_param_name
    plot_kwargs v.
Proof.
  intros Hv. unfold update, frame_for, index. rewrite Hv.
  unfold emit, lift, bind, ret. simpl.
  destruct (pattern_generator _) as [e | data]; simpl; [done |].
  by destruct (plot_function data plot_kwargs).
Qed.

Lemma frames_from (pre param_values : list R) :
  map (update pattern_generator plot_function static_params
         animated_param_name (pre ++ param_values) plot_kwargs)
      (seq (length pre) (length param_values)) =
  map (frame_for pattern_generator plot_function static_params
         animated_param_name plot_kwargs) param_values.
Proof.
  revert pre. induction param_values as [| v vs IH]; intros pre; simpl; [done |].
  f_equal.
  - apply update_frame. by rewrite lookup_app_r, Nat.sub_diag.
  - specialize (IH (pre ++ [v])).
    rewrite length_app, Nat.add_1_r, <- app_assoc in IH. exact IH.
Qed.
End Frames.

Lemma evenly_spaced_constant (start : R) (num : Z) :
  (1 <= num)%Z ->
  evenly_spaced start start num = replicate (Z.to_nat num) start.
Proof.
  intros Hn. unfold evenly_spaced. case_bool_decide as H1; [by subst |].
  assert (Hdiv : (0 < IZR (num - 1))%R) by (apply IZR_lt; lia).
  unfold range. generalize 0%nat as k.
  induction (Z.to_nat num) as [| n IH]; intros k; simpl; [done |].
  f_equal; [field; lra | apply IH].
Qed.

Lemma evenly_spaced_lookup (start stop : R) (num : Z) (i : nat) :
  (1 <= num)%Z ->
  (i < Z.to_nat num)%nat ->
  evenly_spaced start stop num !! i =
  Some (if bool_decide (num = 1%Z) then start
        else start + INR i * ((stop - start) / IZR (num - 1)))%R.
Proof.
  intros Hn Hi. unfold evenly_spaced. case_bool_decide as H1.
  - subst. by replace i with 0%nat by (simpl in Hi; lia).
  - match goal with |- map ?f _ !! _ = _ => change (map f (range num)) with (f <$> range num) end.
    rewrite list_lookup_fmap. unfold range.
    by rewrite lookup_seq_lt by lia.
Qed.

(** C5: with [frames = N >= 1] the driver computes the [N] evenly spaced
    values of the animated parameter from start to end (the first is the
    start value, and for [N >= 2] the last is the end value), and its [N]
    frames are, in order, the frames for these values: each merges its
    value into the static parameters under the animated name, invokes the
    generator and then the plot callback.  When start and end are equal
    all [N] values are the start value; nothing is divided by zero. *)
Theorem animation_frames {pattern : Type}
  (pattern_generator : gmap string pyval -> exn + pattern)
  (static_params : gmap string pyval) (animated_param_name : string)
  (param_start_value param_end_value : R)
  (plot_function : pattern -> gmap string pyval -> exn + unit)
  (frames : Z) (is_3d : bool) (default_plot_color : string)
  (plot_kwargs : gmap string pyval) :
  (1 <= frames)%Z ->
  let values := evenly_spaced param_start_value param_end_value frames in
  let kwargs := default_plot_kwargs is_3d default_plot_color plot_kwargs in
  exists ani,
    animate_pattern_evolution pattern_generator static_params
      animated_param_name param_start_value param_end_value plot_function
      frames is_3d default_plot_color plot_kwargs = inr ani /\
    render ani =
      map (frame_for pattern_generator plot_function static_params
             animated_param_name kwargs) values /\
    length (render ani) = Z.to_nat frames /\
    length values = Z.to_nat frames /\
    (forall i, (i < Z.to_nat frames)%nat ->
       values !! i =
       Some (if bool_decide (frames = 1%Z) then param_start_value
             else param_start_value
                  + INR i * ((param_end_value - param_start_value)
                             / IZR (frames - 1)))%R) /\
    head values = Some param_start_value /\
    ((2 <= frames)%Z -> last values = Some param_end_value) /\
    (param_start_value = param_end_value ->
     values = replicate (Z.to_nat frames) param_start_value).
Proof.
  intros Hn values kwargs.
  assert (Hlen : length values = Z.to_nat frames)
    by (by apply evenly_spaced_length).
  unfold animate_pattern_evolution.
  rewrite linspace_evenly_spaced by done. fold values kwargs.
  eexists. split; [reflexivity |].
  assert (Hrender :
    render {| ani_func :=
                update pattern_generator plot_function static_params
                  animated_param_name values kwargs;
              ani_frames := range frames |} =
    map (frame_for pattern_generator plot_function static_params
           animated_param_name kwargs) values).
  { unfold render, range. simpl. rewrite <- Hlen.
    exact (frames_from pattern_generator plot_function static_params
             animated_param_name kwargs [] values). }
  split; [exact Hrender |].
  split; [by rewrite Hrender, length_map |].
  split; [exact Hlen |].
  split; [intros i Hi; by apply evenly_spaced_lookup |].
  split; [| split].
  - rewrite head_lookup. subst values.
    rewrite evenly_spaced_lookup by lia.
    f_equal. case_bool_decide; [done |]. simpl. ring.
  - intros H2. rewrite last_lookup, Hlen. subst values.
    rewrite evenly_spaced_lookup by lia.
    rewrite bool_decide_eq_false_2 by lia. f_equal.
    replace (Init.Nat.pred (Z.to_nat frames)) with (Z.to_nat (frames - 1)) by lia.
    rewrite INR_to_nat by lia.
    assert (Hdiv : (0 < IZR (frames - 1))%R) by (apply IZR_lt; lia).
    field. lra.
  - intros <-. by apply evenly_spaced_constant.
Qed.

Lemma animation_frames_witness :
  exists ani,
    animate_pattern_evolution example_generator ∅ "radius" 1 1 example_plot
      3 false "#e6e6fa" ∅ = inr ani /\
    length (render ani) = 3%nat /\
    evenly_spaced 1 1 3 = [1; 1; 1]%R.
Proof.
  destruct (animation_frames example_generator ∅ "radius" 1 1 example_plot
              3 false "#e6e6fa" ∅) as (ani & Hani & _ & Hlen & _ & _ & _ & _ & Hconst);
    [lia |].
  exists ani. split; [exact Hani |]. split; [exact Hlen |].
  exact (Hconst eq_refl).
Defined.

(** * Further properties *)

(** ** create_layered_flower_of_life *)

Section LayeredRuns.
Variable create_flower_of_life : flower_generator.

Lemma layered_loop_returns (args : list (point * R * Z)) (acc : list shape) :
  (forall a, a ∈ args ->
     exists circles, create_flower_of_life a.1.1 a.1.2 a.2 = inr circles) ->
  exists per_layer,
    Forall2 (fun a circles => create_flower_of_life a.1.1 a.1.2 a.2 = inr circles)
      args per_layer /\
    for_each args (layered_step create_flower_of_life) acc =
    (map flower_call args, inr (acc ++ concat per_layer)).
Proof.
  revert acc. induction args as [| a args IH]; intros acc Hgen.
  { exists []. split; [constructor |]. simpl. by rewrite app_nil_r. }
  destruct (Hgen a) as [circles Ha]; [left |].
  destruct (IH (acc ++ circles)) as (per & Hall & Hrun).
  { intros b Hb. apply Hgen. by right. }
  exists (circles :: per). split; [by constructor |].
  simpl. rewrite layered_step_run, Ha. unfold bind. rewrite Hrun.
  by rewrite <- app_assoc.
Qed.

Lemma layered_loop_stops (pre post : list (point * R * Z))
  (a : point * R * Z) (e : exn) (acc : list shape) :
  (forall b, b ∈ pre ->
     exists circles, create_flower_of_life b.1.1 b.1.2 b.2 = inr circles) ->
  create_flower_of_life a.1.1 a.1.2 a.2 = inl e ->
  for_each (pre ++ a :: post) (layered_step create_flower_of_life) acc =
  (map flower_call (pre ++ [a]), inl e).
Proof.
  revert acc. induction pre as [| b pre IH]; intros acc Hpre Ha; simpl.
  { by rewrite layered_step_run, Ha. }
  destruct (Hpre b) as [circles Hb]; [left |].
  rewrite layered_step_run, Hb. unfold bind.
  rewrite IH; [done | | done]. intros c Hc. apply Hpre. by right.
Qed.
End LayeredRuns.

(** X1: on lists of matching lengths, when the generator returns for
    every layer, the function calls it once for each layer, in order, and
    returns the circles of all layers, concatenated in that order, under
    ['circles'], with empty ['lines'] and ['polygons']. *)
Theorem layered_returns_all_circles (create_flower_of_life : flower_generator)
  (center : point) (radii : list R) (layers_per_radius : list Z)
  (offsets : option (list point)) (rotations : option (list R)) :
  let n := length radii in
  let offs := default (replicate n (0, 0)%R) offsets in
  let args := layered_args center radii layers_per_radius offs in
  length layers_per_radius = n ->
  length offs = n ->
  length (default (replicate n 0%R) rotations) = n ->
  (forall a, a ∈ args ->
     exists circles, create_flower_of_life a.1.1 a.1.2 a.2 = inr circles) ->
  exists per_layer,
    Forall2 (fun a circles => create_flower_of_life a.1.1 a.1.2 a.2 = inr circles)
      args per_layer /\
    create_layered_flower_of_life create_flower_of_life center radii
      layers_per_radius offsets rotations =
    (map flower_call args,
     inr (<["circles" := concat per_layer]>
          (<["lines" := []]> (<["polygons" := []]> ∅)))).
Proof.
  intros n offs args Hl Ho Hr Hgen.
  destruct (layered_loop_returns create_flower_of_life args [] Hgen)
    as (per & Hall & Hrun).
  exists per. split; [exact Hall |].
  rewrite (layered_matched create_flower_of_life center) by done.
  fold n offs args. rewrite Hrun. unfold bind, ret. simpl.
  by rewrite app_nil_r.
Qed.

Lemma layered_returns_all_circles_witness :
  exists per_layer,
    Forall2 (fun a circles =>
               Core.central_circle 100 a.1.1 a.1.2 a.2 = inr circles)
      (layered_args (0, 0)%R [2; 1]%R [2; 1]%Z [(0, 0); (0.5, 0.5)]%R)
      per_layer /\
    create_layered_flower_of_life (Core.central_circle 100) (0, 0)%R
      [2; 1]%R [2; 1]%Z (Some [(0, 0); (0.5, 0.5)]%R) None =
    (map flower_call
       (layered_args (0, 0)%R [2; 1]%R [2; 1]%Z [(0, 0); (0.5, 0.5)]%R),
     inr (<["circles" := concat per_layer]>
          (<["lines" := []]> (<["polygons" := []]> ∅)))).
Proof.
  apply (layered_returns_all_circles (Core.central_circle 100) (0, 0)%R
           [2; 1]%R [2; 1]%Z (Some [(0, 0); (0.5, 0.5)]%R) None);
    [reflexivity | reflexivity | reflexivity |].
  intros a Ha. unfold Core.central_circle.
  assert (Hr : (0 < a.1.2)%R).
  { unfold layered_args in Ha. simpl in Ha.
    apply elem_of_cons in Ha as [-> | Ha]; [simpl; lra |].
    apply list_elem_of_singleton in Ha as ->. simpl. lra. }
  destruct (create_circle_returns a.1.1 a.1.2 100 Hr) as [circle ->]; [lia |].
  by eexists.
Defined.

(** X2: on lists of matching lengths, the function stops at the first
    layer the generator refuses: it has called the generator for the
    layers up to that one and no further, and raises the generator's
    exception, the circles generated so far being lost. *)
Theorem layered_stops_at_first_failure
  (create_flower_of_life : flower_generator) (center : point)
  (radii : list R) (layers_per_radius : list Z)
  (offsets : option (list point)) (rotations : option (list R))
  (pre post : list (point * R * Z)) (a : point * R * Z) (e : exn) :
  let n := length radii in
  let offs := default (replicate n (0, 0)%R) offsets in
  length layers_per_radius = n ->
  length offs = n ->
  length (default (replicate n 0%R) rotations) = n ->
  layered_args center radii layers_per_radius offs = pre ++ a :: post ->
  (forall b, b ∈ pre ->
     exists circles, create_flower_of_life b.1.1 b.1.2 b.2 = inr circles) ->
  create_flower_of_life a.1.1 a.1.2 a.2 = inl e ->
  create_layered_flower_of_life create_flower_of_life center radii
    layers_per_radius offsets rotations =
  (map flower_call (pre ++ [a]), inl e).
Proof.
  intros n offs Hl Ho Hr Hargs Hpre Ha.
  rewrite (layered_matched create_flower_of_life center) by done.
  fold n offs. rewrite Hargs.
  by rewrite (layered_loop_stops create_flower_of_life pre post a e).
Qed.

Lemma layered_stops_at_first_failure_witness :
  create_layered_flower_of_life (Core.central_circle 100) (0, 0)%R
    [1; -1; 3]%R [0; 0; 0]%Z None None =
  (map flower_call [((0 + 0, 0 + 0), 1, 0%Z); ((0 + 0, 0 + 0), -1, 0%Z)]%R,
   inl (InvalidParameter "radius")).
Proof.
  apply (layered_stops_at_first_failure (Core.central_circle 100) (0, 0)%R
           [1; -1; 3]%R [0; 0; 0]%Z None None
           [((0 + 0, 0 + 0), 1, 0%Z)]%R [((0 + 0, 0 + 0), 3, 0%Z)]%R
           ((0 + 0, 0 + 0), -1, 0%Z)%R (InvalidParameter "radius"));
    try reflexivity.
  - intros b Hb. apply list_elem_of_singleton in Hb as ->.
    unfold Core.central_circle. simpl.
    destruct (create_circle_returns (0 + 0, 0 + 0)%R 1 100) as [circle ->];
      [lra | lia |].
    by eexists.
  - unfold Core.central_circle. simpl.
    by rewrite create_circle_refuses by lra.
Defined.

(** X3: [rotations] matters through its length alone: with any list of
    the length of [radii] the function does what it does without one. *)
Theorem layered_ignores_rotation_values
  (create_flower_of_life : flower_generator) (center : point)
  (radii : list R) (layers_per_radius : list Z)
  (offsets : option (list point)) (rotations : list R) :
  length rotations = length radii ->
  create_layered_flower_of_life create_flower_of_life center radii
    layers_per_radius offsets (Some rotations) =
  create_layered_flower_of_life create_flower_of_life center radii
    layers_per_radius offsets None.
Proof.
  intros Hr. unfold create_layered_flower_of_life. simpl.
  by rewrite Hr, length_replicate.
Qed.

Lemma layered_ignores_rotation_values_witness :
  create_layered_flower_of_life (Core.central_circle 100) (0, 0)%R
    [2; 1]%R [2; 1]%Z None (Some [PI; 1]%R) =
  create_layered_flower_of_life (Core.central_circle 100) (0, 0)%R
    [2; 1]%R [2; 1]%Z None None.
Proof. by apply layered_ignores_rotation_values. Defined.

(** ** create_mandala_from_polygons *)

Section MandalaRuns.
Variable create_regular_polygon : polygon_generator.
Variable create_circle : circle_generator.
Variable center : point.

Lemma segment_returns angle specs acc :
  (forall element_def, element_def ∈ specs ->
     exists new, element_shapes create_regular_polygon create_circle center
                   angle element_def = inr new) ->
  exists r,
    outcome (for_each specs
               (mandala_element create_regular_polygon create_circle center
                  angle) acc) = inr r.
Proof.
  revert acc. induction specs as [| e specs IH]; intros acc Hgen; simpl.
  { by eexists. }
  destruct (Hgen e) as [new Hnew]; [left |].
  destruct (IH (extend acc new)) as [r Hr].
  { intros e' He'. apply Hgen. by right. }
  exists r. rewrite mandala_element_run, Hnew. unfold bind.
  destruct (for_each specs _ (extend acc new)) as [t r']. exact Hr.
Qed.

Lemma segments_return step specs (l : list nat) acc :
  (forall i element_def, i ∈ l -> element_def ∈ specs ->
     exists new, element_shapes create_regular_polygon create_circle center
                   (INR i * step) element_def = inr new) ->
  exists r,
    outcome (for_each l
               (mandala_segment create_regular_polygon create_circle center
                  step specs) acc) = inr r.
Proof.
  revert acc. induction l as [| i l IH]; intros acc Hgen; simpl.
  { by eexists. }
  destruct (segment_returns (INR i * step) specs acc) as [acc' Hacc'].
  { intros e He. apply Hgen; [left | done]. }
  destruct (IH acc') as [r Hr].
  { intros j e Hj He. apply Hgen; [by right | done]. }
  exists r. unfold mandala_segment at 1.
  destruct (for_each specs _ acc) as [t [x | s]]; [done |].
  unfold outcome in Hacc'. simpl in Hacc'. injection Hacc' as ->.
  unfold bind. destruct (for_each l _ acc') as [t' r']. exact Hr.
Qed.

Lemma segments_calls step specs l acc r :
  outcome
    (for_each l
       (mandala_segment create_regular_polygon create_circle center step specs)
       acc) = inr r ->
  length (events
            (for_each l
               (mandala_segment create_regular_polygon create_circle center
                  step specs) acc)) =
  (length l * length (List.filter recognized specs))%nat.
Proof.
  revert acc. induction l as [| i l IH]; intros acc Hm; simpl; [done |].
  simpl in Hm. apply outcome_bind_inr in Hm as (acc' & Hseg & Hrest & ->).
  rewrite length_app, (IH acc' Hrest).
  unfold mandala_segment in Hseg |- * at 1.
  apply segment_run in Hseg as (Hev & _ & _). rewrite Hev, length_map. lia.
Qed.

(** What the slots of a mandala that returns have returned. *)
Lemma slots_gathered num_segments specs (l : list nat) acc res :
  outcome
    (for_each l
       (fun acc i =>
          r <- mandala_slot create_regular_polygon create_circle center
                 num_segments specs i ;;
          ret (extend acc r)) acc) = inr res ->
  exists slots,
    Forall2 (fun i r =>
               outcome (mandala_slot create_regular_polygon create_circle
                          center num_segments specs i) = inr r) l slots /\
    res = (acc.1 ++ concat (map fst slots), acc.2 ++ concat (map snd slots)).
Proof.
  revert acc. induction l as [| i l IH]; intros acc Hm; simpl in *.
  { injection Hm as <-. exists []. split; [constructor |].
    destruct acc. simpl. by rewrite !app_nil_r. }
  apply outcome_bind_inr in Hm as (acc' & Hstep & Hrest & _).
  apply outcome_bind_inr in Hstep as (r & Hslot & Hret & _).
  injection Hret as <-.
  destruct (IH _ Hrest) as (slots & Hall & ->).
  exists (r :: slots). split; [by constructor |].
  unfold extend. simpl. by rewrite !app_assoc.
Qed.
End MandalaRuns.

(** X4: called without segment elements, a mandala that returns holds
    two polygons and one circle for each segment, and has called a
    generator three times for each segment. *)
Theorem default_mandala_counts (create_regular_polygon : polygon_generator)
  (create_circle : circle_generator) (center : point) (num_segments : Z)
  (base_radius : R) (comp : Composition shape) :
  let m := create_mandala_from_polygons create_regular_polygon create_circle
             center num_segments None base_radius in
  outcome m = inr comp ->
  exists polygons circles,
    comp !! "polygons" = Some polygons /\
    comp !! "circles" = Some circles /\
    length polygons = (2 * Z.to_nat num_segments)%nat /\
    length circles = Z.to_nat num_segments /\
    length (events m) = (3 * Z.to_nat num_segments)%nat.
Proof.
  intros m Hm. subst m. unfold create_mandala_from_polygons in *.
  simpl in *.
  destruct (bool_decide (float_int_limit <= Z.abs num_segments)%Z); [done |].
  destruct (bool_decide (num_segments = 0%Z)); [done |].
  apply outcome_bind_inr in Hm as (acc & Hacc & Hret & ->).
  injection Hret as <-.
  rewrite length_app, (segments_calls _ _ _ _ _ _ _ acc Hacc).
  apply segments_run in Hacc as [H1 H2].
  exists acc.1, acc.2. simplify_map_eq.
  rewrite range_length in *. simpl in *. repeat split; lia.
Qed.

Lemma polygon_returns (center : point) (radius : R) (sides : Z) (rotation : R) :
  (0 < radius)%R -> (3 <= sides)%Z ->
  exists poly,
    Core.create_regular_polygon center radius sides rotation = inr poly.
Proof.
  intros Hr Hs. unfold Core.create_regular_polygon.
  destruct (Rle_dec radius 0); [lra |].
  rewrite (proj2 (Z.ltb_ge sides 3)) by lia. by eexists.
Qed.

(** The modelled generators return for an element of positive radius
    that, if it is a polygon, has three sides or more. *)
Lemma element_generated (num_points : Z) (center : point) (angle : R)
  (element_def : element_def) :
  (3 <= num_points)%Z ->
  (0 < default 0.1 (el_radius element_def))%R ->
  (3 <= default 3 (el_sides element_def))%Z ->
  exists new,
    element_shapes Core.create_regular_polygon (core_circle num_points) center
      angle element_def = inr new.
Proof.
  intros Hnp Hr Hs. unfold element_shapes.
  destruct (is_polygon element_def).
  - destruct (polygon_returns
                (element_center center angle element_def)
                (default 0.1%R (el_radius element_def))
                (default 3%Z (el_sides element_def))
                (default 0.0%R (el_rotation element_def) + angle)%R Hr Hs)
      as [poly ->].
    by eexists.
  - destruct (is_circle element_def); [| by eexists].
    unfold core_circle.
    destruct (create_circle_returns
                (element_center center angle element_def)
                (default 0.1%R (el_radius element_def)) num_points Hr Hnp)
      as [circ ->].
    by eexists.
Qed.

Lemma default_elements_generated (center : point) (angle : R)
  (element_def : element_def) :
  element_def ∈ default_segment_elements 2.5 ->
  exists new,
    element_shapes Core.create_regular_polygon (core_circle 100) center angle
      element_def = inr new.
Proof.
  intros He. unfold default_segment_elements in He.
  repeat (apply elem_of_cons in He as [-> | He]);
    [| | | by apply elem_of_nil in He];
    (apply element_generated; [lia | simpl; lra | simpl; lia]).
Qed.

Lemma default_mandala_counts_witness :
  exists comp polygons circles,
    outcome (create_mandala_from_polygons Core.create_regular_polygon
               (core_circle 100) (0, 0)%R 8 None 2.5) = inr comp /\
    comp !! "polygons" = Some polygons /\
    comp !! "circles" = Some circles /\
    length polygons = 16%nat /\
    length circles = 8%nat.
Proof.
  assert (Hret : exists comp,
            outcome (create_mandala_from_polygons Core.create_regular_polygon
                       (core_circle 100) (0, 0)%R 8 None 2.5) = inr comp).
  { rewrite mandala_loop by done.
    destruct (segments_return Core.create_regular_polygon (core_circle 100)
                (0, 0)%R (2 * PI / 8) (default_segment_elements 2.5)
                (range 8) ([], [])) as [r Hr].
    { intros i e _ He. by apply default_elements_generated. }
    simpl default. destruct (for_each _ _ _) as [t [x | s]]; [done |].
    unfold bind, ret, outcome. simpl. by eexists. }
  destruct Hret as [comp Hcomp].
  destruct (default_mandala_counts _ _ _ _ _ comp Hcomp)
    as (polygons & circles & Hp & Hc & Hlp & Hlc & _).
  exists comp, polygons, circles. repeat split; done.
Defined.

(** X22: apart from the division, which raises for no segments and for
    a number of segments too large for a float, the mandala raises nothing
    of its own: with any other number of segments it returns whenever the
    generators return for every element of every segment. *)
Theorem mandala_returns_when_generators_do
  (create_regular_polygon : polygon_generator)
  (create_circle : circle_generator) (center : point) (num_segments : Z)
  (segment_elements : option (list element_def)) (base_radius : R) :
  num_segments <> 0%Z ->
  (Z.abs num_segments < float_int_limit)%Z ->
  (forall i element_def,
     i ∈ range num_segments ->
     element_def ∈ default (default_segment_elements base_radius)
                     segment_elements ->
     exists new, element_shapes create_regular_polygon create_circle center
                   (INR i * (2 * PI / IZR num_segments)) element_def
                 = inr new) ->
  exists comp,
    outcome (create_mandala_from_polygons create_regular_polygon create_circle
               center num_segments segment_elements base_radius) = inr comp.
Proof.
  intros Hn Hlim Hgen. unfold create_mandala_from_polygons.
  rewrite (bool_decide_eq_false_2 (float_int_limit <= _)%Z) by lia.
  rewrite (bool_decide_eq_false_2 (num_segments = 0%Z)) by done.
  destruct (segments_return create_regular_polygon create_circle center
              (2 * PI / IZR num_segments)
              (default (default_segment_elements base_radius) segment_elements)
              (range num_segments) ([], []) Hgen) as [r Hr].
  destruct (for_each _ _ _) as [t [x | s]]; [done |].
  unfold bind, ret, outcome. simpl. by eexists.
Qed.

Lemma mandala_returns_when_generators_do_witness :
  exists comp,
    outcome (create_mandala_from_polygons Core.create_regular_polygon
               (core_circle 100) (0, 0)%R 8 None 2.5) = inr comp.
Proof.
  apply (mandala_returns_when_generators_do Core.create_regular_polygon
           (core_circle 100) (0, 0)%R 8 None 2.5); [done | reflexivity |].
  intros i e _ He. by apply default_elements_generated.
Defined.

(** X5: asked for no segment or a negative number of segments, the
    function calls no generator.  With none it divides by zero; with a
    negative number too large for a float the division overflows; with any
    other negative number the mandala returned is empty and no error is
    raised. *)
Theorem mandala_without_segments (create_regular_polygon : polygon_generator)
  (create_circle : circle_generator) (center : point) (num_segments : Z)
  (segment_elements : option (list element_def)) (base_radius : R) :
  (num_segments <= 0)%Z ->
  create_mandala_from_polygons create_regular_polygon create_circle center
    num_segments segment_elements base_radius =
  ([], if bool_decide (num_segments = 0%Z) then inl ZeroDivisionError
       else if bool_decide (num_segments <= - float_int_limit)%Z
       then inl (OverflowError float_overflow_message)
       else inr (<["polygons" := []]>
                 (<["circles" := []]> (<["lines" := []]> ∅)))).
Proof.
  intros Hn. unfold create_mandala_from_polygons.
  pose proof float_int_limit_pos as Hpos.
  case_bool_decide as Hlim.
  - rewrite (bool_decide_eq_false_2 (num_segments = 0%Z)) by lia.
    by rewrite (bool_decide_eq_true_2 (num_segments <= _)%Z) by lia.
  - case_bool_decide as H0; [done |].
    rewrite (bool_decide_eq_false_2 (num_segments <= _)%Z) by lia.
    unfold range. replace (Z.to_nat num_segments) with 0%nat by lia.
    reflexivity.
Qed.

Lemma mandala_without_segments_witness :
  create_mandala_from_polygons Core.create_regular_polygon (core_circle 100)
    (0, 0)%R (-3) (Some [triangle; lone_circle]) 3 =
  ([], inr (<["polygons" := []]>
            (<["circles" := []]> (<["lines" := []]> ∅)))) /\
  create_mandala_from_polygons Core.create_regular_polygon (core_circle 100)
    (0, 0)%R (- 2 ^ 1024) (Some [triangle; lone_circle]) 3 =
  ([], inl (OverflowError float_overflow_message)).
Proof.
  split.
  - by apply (mandala_without_segments Core.create_regular_polygon
                (core_circle 100) (0, 0)%R (-3)).
  - by apply (mandala_without_segments Core.create_regular_polygon
                (core_circle 100) (0, 0)%R (- 2 ^ 1024)).
Defined.

(** X7: a mandala that returns holds the polygons of its slots, slot
    after slot, and likewise the circles: the elements of a segment stay
    together, in the order of the element definitions. *)
Theorem mandala_gathers_slots (create_regular_polygon : polygon_generator)
  (create_circle : circle_generator) (center : point) (num_segments : Z)
  (specs : list element_def) (base_radius : R) (comp : Composition shape) :
  outcome (create_mandala_from_polygons create_regular_polygon create_circle
             center num_segments (Some specs) base_radius) = inr comp ->
  exists slots,
    Forall2 (fun i r =>
               outcome (mandala_slot create_regular_polygon create_circle
                          center num_segments specs i) = inr r)
      (range num_segments) slots /\
    comp !! "polygons" = Some (concat (map fst slots)) /\
    comp !! "circles" = Some (concat (map snd slots)).
Proof.
  intros Hm.
  destruct (decide (float_int_limit <= Z.abs num_segments)%Z) as [Hlim | Hlim].
  { by rewrite mandala_overflow in Hm. }
  destruct (decide (num_segments = 0%Z)) as [-> | Hn]; [done |].
  rewrite mandala_by_slots in Hm by (done || lia).
  apply outcome_bind_inr in Hm as (acc & Hacc & Hret & _).
  injection Hret as <-.
  apply slots_gathered in Hacc as (slots & Hall & ->).
  exists slots. split; [exact Hall |]. by simplify_map_eq.
Qed.

Lemma mandala_gathers_slots_witness :
  exists comp slots,
    outcome (create_mandala_from_polygons Core.create_regular_polygon
               (core_circle 100) (0, 0)%R 3 (Some [triangle; lone_circle]) 3)
      = inr comp /\
    Forall2 (fun i r =>
               outcome (mandala_slot Core.create_regular_polygon
                          (core_circle 100) (0, 0)%R 3 [triangle; lone_circle] i)
                 = inr r /\
               length r.1 = 1%nat /\ length r.2 = 1%nat)
      (range 3) slots /\
    length slots = 3%nat /\
    comp !! "polygons" = Some (concat (map fst slots)) /\
    comp !! "circles" = Some (concat (map snd slots)).
Proof.
  assert (Hret : exists comp,
            outcome (create_mandala_from_polygons Core.create_regular_polygon
                       (core_circle 100) (0, 0)%R 3
                       (Some [triangle; lone_circle]) 3) = inr comp).
  { rewrite mandala_loop by done.
    destruct (segments_return Core.create_regular_polygon (core_circle 100)
                (0, 0)%R (2 * PI / 3) [triangle; lone_circle]
                (range 3) ([], [])) as [r Hr].
    { intros i e _ He.
      repeat (apply elem_of_cons in He as [-> | He]);
        [| | by apply elem_of_nil in He];
        (apply element_generated; [lia | simpl; lra | simpl; lia]). }
    simpl default. destruct (for_each _ _ _) as [t [x | s]]; [done |].
    unfold bind, ret, outcome. simpl. by eexists. }
  destruct Hret as [comp Hcomp].
  destruct (mandala_gathers_slots _ _ _ _ _ _ comp Hcomp)
    as (slots & Hall & Hp & Hc).
  exists comp, slots. split; [exact Hcomp |].
  split; [| split; [| split; [exact Hp | exact Hc]]].
  - eapply Forall2_impl; [exact Hall |]. intros i r Hr.
    split; [exact Hr |].
    unfold mandala_slot, mandala_segment in Hr.
    apply segment_run in Hr as (_ & H1 & H2). split; [exact H1 | exact H2].
  - apply Forall2_length in Hall. rewrite <- Hall. reflexivity.
Defined.

(** X8: an element sits at the distance [offset_r] from the centre of the
    mandala, in every segment and whatever its angular offset; without an
    [offset_r] it sits at the centre itself. *)
Theorem element_center_distance (center : point) (angle : R)
  (element_def : element_def) :
  let c := element_center center angle element_def in
  let r := default 0.0%R (el_offset_r element_def) in
  ((c.1 - center.1) * (c.1 - center.1) + (c.2 - center.2) * (c.2 - center.2)
   = r * r)%R /\
  (el_offset_r element_def = None -> c = center).
Proof.
  intros c r. subst c r. unfold element_center. simpl. split.
  - set (a := (angle + default 0.0%R (el_offset_angle element_def))%R).
    pose proof (sin2_cos2 a) as H. unfold Rsqr in H.
    set (s := sin a) in *. set (k := cos a) in *.
    set (d := default 0.0%R (el_offset_r element_def)).
    replace ((center.1 + d * k - center.1) * (center.1 + d * k - center.1)
             + (center.2 + d * s - center.2) * (center.2 + d * s - center.2))%R
      with (d * d * (s * s + k * k))%R by ring.
    rewrite H. ring.
  - intros ->. destruct center as [x y]. simpl. f_equal; lra.
Qed.

Lemma element_center_distance_witness :
  element_center (1, 2)%R PI lone_circle = (1, 2)%R.
Proof.
  by apply (element_center_distance (1, 2)%R PI lone_circle).
Defined.

(** ** Results and combine_patterns *)

(** A composition over the three categories of the flat patterns gains
    the fourth when combined with the empty composition. *)
Lemma combine_adds_3d_shapes {A} (comp : Composition A) :
  dom comp = ({["polygons"; "circles"; "lines"]} : gset string) ->
  combine_patterns comp ∅ = <["3d_shapes" := []]> comp /\
  combine_patterns ∅ comp = <["3d_shapes" := []]> comp /\
  combine_patterns comp ∅ <> comp.
Proof.
  intros Hdom.
  assert (H3 : comp !! "3d_shapes" = None).
  { apply not_elem_of_dom.
    rewrite Hdom, !elem_of_union, !elem_of_singleton. intuition discriminate. }
  assert (Heq : forall e : Composition A,
            (forall k, get_list e k = []) ->
            forall k, (if decide (k ∈ categories)
                       then Some (get_list comp k ++ get_list e k)
                       else None) = <["3d_shapes" := []]> comp !! k /\
                      (if decide (k ∈ categories)
                       then Some (get_list e k ++ get_list comp k)
                       else None) = <["3d_shapes" := []]> comp !! k).
  { intros e He k. rewrite He, app_nil_r. simpl.
    destruct (decide (k = "3d_shapes")) as [-> | Hk].
    - rewrite lookup_insert_eq, decide_True
        by (apply elem_of_categories; tauto).
      unfold get_list. by rewrite H3.
    - rewrite lookup_insert_ne by done.
      destruct (decide (k ∈ categories)) as [Hin | Hout].
      + assert (Hd : k ∈ dom comp).
        { rewrite Hdom, !elem_of_union, !elem_of_singleton.
          apply elem_of_categories in Hin. tauto. }
        apply elem_of_dom in Hd as [l Hl]. unfold get_list. by rewrite Hl.
      + assert (Hd : k ∉ dom comp).
        { rewrite Hdom, !elem_of_union, !elem_of_singleton.
          rewrite elem_of_categories in Hout. tauto. }
        apply not_elem_of_dom in Hd. by rewrite Hd. }
  assert (He : forall k, get_list (∅ : Composition A) k = [])
    by (intros; apply get_list_empty).
  split; [| split].
  - apply map_eq. intros k. rewrite combine_lookup. apply (Heq ∅ He k).
  - apply map_eq. intros k. rewrite combine_lookup. apply (Heq ∅ He k).
  - intros H.
    assert (Hl : combine_patterns comp ∅ !! "3d_shapes" = comp !! "3d_shapes")
      by (by rewrite H).
    rewrite combine_lookup, H3, decide_True in Hl
      by (apply elem_of_categories; tauto).
    done.
Qed.

(** X6: what [create_mandala_from_polygons] and
    [create_layered_flower_of_life] return has the three keys
    ['polygons'], ['circles'] and ['lines'], the last with an empty list;
    combined with the empty composition, on either side, it gains
    ['3d_shapes'] with an empty list and is otherwise unchanged. *)
Theorem flat_results_gain_3d_shapes
  (create_flower_of_life : flower_generator)
  (create_regular_polygon : polygon_generator)
  (create_circle : circle_generator) (center : point)
  (radii : list R) (layers_per_radius : list Z)
  (offsets : option (list point)) (rotations : option (list R))
  (num_segments : Z) (segment_elements : option (list element_def))
  (base_radius : R) (comp : Composition shape) :
  outcome (create_mandala_from_polygons create_regular_polygon create_circle
             center num_segments segment_elements base_radius) = inr comp \/
  outcome (create_layered_flower_of_life create_flower_of_life center radii
             layers_per_radius offsets rotations) = inr comp ->
  dom comp = ({["polygons"; "circles"; "lines"]} : gset string) /\
  comp !! "lines" = Some [] /\
  combine_patterns comp ∅ = <["3d_shapes" := []]> comp /\
  combine_patterns ∅ comp = <["3d_shapes" := []]> comp /\
  combine_patterns comp ∅ <> comp.
Proof.
  intros H.
  assert (Hshape : dom comp = ({["polygons"; "circles"; "lines"]} : gset string)
                   /\ comp !! "lines" = Some []).
  { destruct H as [H | H].
    - unfold create_mandala_from_polygons in H.
      destruct (bool_decide (float_int_limit <= Z.abs num_segments)%Z);
        [done |].
      destruct (bool_decide (num_segments = 0%Z)); [done |].
      apply outcome_bind_inr in H as (acc & _ & Hret & _).
      injection Hret as <-. split; [| by simplify_map_eq].
      rewrite !dom_insert_L, dom_empty_L. set_solver.
    - unfold create_layered_flower_of_life in H.
      destruct (negb _); [done |].
      apply outcome_bind_inr in H as (acc & _ & Hret & _).
      injection Hret as <-. split; [| by simplify_map_eq].
      rewrite !dom_insert_L, dom_empty_L. set_solver. }
  destruct Hshape as [Hdom Hlines].
  split; [exact Hdom |]. split; [exact Hlines |].
  by apply combine_adds_3d_shapes.
Qed.

Lemma flat_results_gain_3d_shapes_witness :
  combine_patterns
    (<["polygons" := []]> (<["circles" := []]> (<["lines" := []]> ∅))
       : Composition shape) ∅ =
  <["3d_shapes" := []]>
    (<["polygons" := []]> (<["circles" := []]> (<["lines" := []]> ∅))).
Proof.
  apply (flat_results_gain_3d_shapes (Core.central_circle 100)
           Core.create_regular_polygon (core_circle 100) (0, 0)%R
           [] [] None None 3 (Some [stray_line]) 3).
  left. by rewrite mandala_skip.
Defined.

(** X9: [combine_patterns] normalises: its result is left unchanged by a
    further combination with the empty composition, on either side. *)
Theorem combine_patterns_settles {A} (p q : Composition A) :
  combine_patterns (combine_patterns p q) ∅ = combine_patterns p q /\
  combine_patterns ∅ (combine_patterns p q) = combine_patterns p q.
Proof.
  apply combine_fixes_full; [| apply combine_dom].
  intros k _. apply get_list_empty.
Qed.

(** ** create_platonic_solid_constellation *)

(** X10: a solid type that does not resolve is refused first, whatever
    the number of solids; for one that resolves, no solid at all is a
    division by zero, a negative number of solids too large for a float
    makes the division overflow, and any other negative number gives the
    empty constellation; no generator is called in any of these cases. *)
Theorem constellation_without_solids {solid : Type}
  (import_shapes : option (shapes_module solid)) (solid_type : string)
  (num_solids : Z) (arrangement_radius solid_radius solid_rotation_offset : R) :
  (num_solids <= 0)%Z ->
  create_platonic_solid_constellation import_shapes solid_type num_solids
    arrangement_radius solid_radius solid_rotation_offset =
  ([], match resolve_solid import_shapes solid_type with
       | None => inl (ValueError (unsupported_message solid_type))
       | Some _ =>
           if bool_decide (num_solids = 0%Z) then inl ZeroDivisionError
           else if bool_decide (num_solids <= - float_int_limit)%Z
           then inl (OverflowError float_overflow_message)
           else inr (constellation_of [])
       end).
Proof.
  intros Hn. unfold create_platonic_solid_constellation.
  destruct (resolve_solid import_shapes solid_type); [| done].
  pose proof float_int_limit_pos as Hpos.
  case_bool_decide as Hlim.
  - rewrite (bool_decide_eq_false_2 (num_solids = 0%Z)) by lia.
    by rewrite (bool_decide_eq_true_2 (num_solids <= _)%Z) by lia.
  - case_bool_decide as H0; [done |].
    rewrite (bool_decide_eq_false_2 (num_solids <= _)%Z) by lia.
    unfold range. replace (Z.to_nat num_solids) with 0%nat by lia.
    reflexivity.
Qed.

Lemma constellation_without_solids_witness :
  create_platonic_solid_constellation (Some Shapes.module) "hexagon" 0 5 1
    (PI / 7) =
  ([], inl (ValueError (unsupported_message "hexagon"))) /\
  create_platonic_solid_constellation (Some Shapes.module) "octahedron" (-2)
    5 1 (PI / 7) =
  ([], inr (constellation_of [])) /\
  create_platonic_solid_constellation (Some Shapes.module) "octahedron"
    (- 2 ^ 1024) 5 1 (PI / 7) =
  ([], inl (OverflowError float_overflow_message)).
Proof.
  split; [| split].
  - by apply (constellation_without_solids (Some Shapes.module) "hexagon" 0).
  - rewrite (constellation_without_solids (Some Shapes.module) "octahedron")
      by lia.
    by rewrite octahedron_resolves.
  - rewrite (constellation_without_solids (Some Shapes.module) "octahedron")
      by done.
    by rewrite octahedron_resolves.
Defined.

(** X11: what [create_platonic_solid_constellation] returns has the four
    keys: the empty composition is an identity for it on both sides, and
    two constellations combine to the constellation of the solids of the
    first followed by those of the second. *)
Theorem constellations_combine {solid : Type}
  (import1 import2 : option (shapes_module solid)) (type1 type2 : string)
  (n1 n2 : Z) (r1 r2 s1 s2 o1 o2 : R) (comp1 comp2 : Composition solid) :
  outcome (create_platonic_solid_constellation import1 type1 n1 r1 s1 o1)
    = inr comp1 ->
  outcome (create_platonic_solid_constellation import2 type2 n2 r2 s2 o2)
    = inr comp2 ->
  combine_patterns comp1 ∅ = comp1 /\
  combine_patterns ∅ comp1 = comp1 /\
  combine_patterns comp1 comp2 =
    constellation_of (get_list comp1 "3d_shapes" ++ get_list comp2 "3d_shapes").
Proof.
  assert (Hform : forall imp type n r s o (comp : Composition solid),
            outcome (create_platonic_solid_constellation imp type n r s o)
              = inr comp ->
            exists shapes, comp = constellation_of shapes).
  { intros imp type n r s o comp H.
    unfold create_platonic_solid_constellation in H.
    destruct (resolve_solid imp type); [| done].
    destruct (bool_decide (float_int_limit <= Z.abs n)%Z); [done |].
    destruct (bool_decide (n = 0%Z)); [done |].
    apply outcome_bind_inr in H as (shapes & _ & Hret & _).
    injection Hret as <-. by exists shapes. }
  intros H1 H2.
  apply Hform in H1 as [shapes1 ->]. apply Hform in H2 as [shapes2 ->].
  assert (Hdom : forall shapes : list solid,
            dom (constellation_of shapes) = categories).
  { intros shapes. unfold constellation_of, categories.
    rewrite !dom_insert_L, dom_empty_L. set_solver. }
  assert (He : forall k, k ∈ categories -> get_list (∅ : Composition solid) k = [])
    by (intros; apply get_list_empty).
  destruct (combine_fixes_full (constellation_of shapes1) ∅ He (Hdom shapes1))
    as [Hr Hl].
  split; [exact Hr |]. split; [exact Hl |].
  apply map_eq. intros k. rewrite combine_lookup.
  unfold constellation_of, get_list.
  destruct (decide (k ∈ categories)) as [Hin | Hout].
  - apply elem_of_categories in Hin.
    destruct Hin as [-> | [-> | [-> | ->]]]; by simplify_map_eq.
  - rewrite elem_of_categories in Hout.
    rewrite !lookup_insert_ne, lookup_empty; [done | intros <-; tauto ..].
Qed.

Lemma constellations_combine_witness :
  combine_patterns (constellation_of ([] : list solid_data)) ∅ =
  constellation_of [].
Proof.
  apply (constellations_combine (Some Shapes.module) (Some Shapes.module)
           "octahedron" "octahedron" (-1) (-1) 5 5 1 1 0 0
           (constellation_of []) (constellation_of []));
    unfold create_platonic_solid_constellation;
    by rewrite octahedron_resolves.
Defined.

(** X12: the place of each solid is the place of the one before it
    turned by the step about the vertical axis through the origin, and
    after [num_solids] steps the places start over. *)
Theorem constellation_places_turn (arrangement_radius : R) (num_solids : Z)
  (i : nat) :
  (1 <= num_solids)%Z ->
  let step := (2 * PI / IZR num_solids)%R in
  let place := solid_center arrangement_radius step in
  (place (S i)).1 = rotate_about (0, 0)%R step (place i).1 /\
  (place (S i)).2 = (place i).2 /\
  place (i + Z.to_nat num_solids)%nat = place i.
Proof.
  intros Hn step place. subst place. unfold solid_center. cbn [fst snd].
  assert (Hpos : (0 < IZR num_solids)%R) by (apply IZR_lt; lia).
  split; [| split; [done |]].
  - unfold rotate_about. cbn [fst snd]. rewrite S_INR.
    replace ((INR i + 1) * step)%R with (INR i * step + step)%R by ring.
    rewrite cos_plus, sin_plus. f_equal; ring.
  - assert (Hfull : (INR (i + Z.to_nat num_solids) * step
                     = INR i * step + 2 * PI)%R).
    { rewrite plus_INR, INR_to_nat by lia. subst step. field. lra. }
    rewrite Hfull.
    assert (Hc : cos (INR i * step + 2 * PI) = cos (INR i * step)).
    { rewrite cos_plus, cos_2PI, sin_2PI. ring. }
    assert (Hs : sin (INR i * step + 2 * PI) = sin (INR i * step)).
    { rewrite sin_plus, cos_2PI, sin_2PI. ring. }
    by rewrite Hc, Hs.
Qed.

Lemma constellation_places_turn_witness :
  solid_center 5 (2 * PI / 6) (2 + Z.to_nat 6) = solid_center 5 (2 * PI / 6) 2.
Proof.
  apply (constellation_places_turn 5 6 2). lia.
Defined.

(** ** animate_pattern_evolution *)

(** X13: without frames the driver returns an animation of no frame, the
    generator never being invoked; a negative number of frames is refused
    with a [ValueError] when the values are computed. *)
Theorem animation_without_frames {pattern : Type}
  (pattern_generator : gmap string pyval -> exn + pattern)
  (static_params : gmap string pyval) (animated_param_name : string)
  (param_start_value param_end_value : R)
  (plot_function : pattern -> gmap string pyval -> exn + unit)
  (frames : Z) (is_3d : bool) (default_plot_color : string)
  (plot_kwargs : gmap string pyval) :
  (frames <= 0)%Z ->
  match animate_pattern_evolution pattern_generator static_params
          animated_param_name param_start_value param_end_value plot_function
          frames is_3d default_plot_color plot_kwargs with
  | inl e => (frames < 0)%Z /\ exists msg, e = ValueError msg
  | inr ani => frames = 0%Z /\ render ani = []
  end.
Proof.
  intros Hn. unfold animate_pattern_evolution, linspace.
  destruct (frames <? 0)%Z eqn:Hneg.
  - apply Z.ltb_lt in Hneg. split; [done | by eexists].
  - apply Z.ltb_ge in Hneg. assert (frames = 0%Z) as -> by lia.
    simpl. done.
Qed.

Lemma animation_without_frames_witness :
  match animate_pattern_evolution example_generator ∅ "radius" 1 2
          example_plot 0 false "#e6e6fa" ∅ with
  | inl e => (0 < 0)%Z /\ exists msg, e = ValueError msg
  | inr ani => 0%Z = 0%Z /\ render ani = []
  end.
Proof.
  apply (animation_without_frames example_generator ∅ "radius" 1 2
           example_plot 0 false "#e6e6fa" ∅).
  lia.
Defined.

(** X14: the keyword arguments handed to the plot callback are the
    caller's when they name a ['color'] or a ['color_scheme']; otherwise
    the default colour is set under one key, ['color'] in 2D and
    ['facecolors'] in 3D, where it replaces a ['facecolors'] of the
    caller.  In every case each other key is as the caller gave it, kept
    with its value when given and absent when not: in 2D a ['facecolors']
    of the caller is kept, and nothing but the one key is added. *)
Theorem default_plot_kwargs_keeps_caller (is_3d : bool)
  (default_plot_color : string) (plot_kwargs : gmap string pyval) :
  let kwargs := default_plot_kwargs is_3d default_plot_color plot_kwargs in
  let added := if is_3d then "facecolors" else "color" in
  (plot_kwargs !! "color" <> None \/ plot_kwargs !! "color_scheme" <> None ->
   kwargs = plot_kwargs) /\
  (plot_kwargs !! "color" = None /\ plot_kwargs !! "color_scheme" = None ->
   kwargs !! added = Some (PStr default_plot_color) /\
   dom kwargs = {[added]} ∪ dom plot_kwargs) /\
  (forall k, k <> added -> kwargs !! k = plot_kwargs !! k) /\
  (is_3d = false -> kwargs !! "facecolors" = plot_kwargs !! "facecolors").
Proof.
  intros kwargs added. subst kwargs added. unfold default_plot_kwargs.
  split; [| split; [| split]].
  - intros [H | H].
    + by rewrite (bool_decide_eq_false_2 _ H).
    + rewrite (bool_decide_eq_false_2 _ H). by rewrite andb_false_r.
  - intros [Hc Hs]. rewrite !bool_decide_eq_true_2 by done. simpl.
    destruct is_3d; by rewrite lookup_insert_eq, dom_insert_L.
  - intros k Hk.
    destruct (bool_decide _ && bool_decide _); [| done].
    destruct is_3d; by rewrite lookup_insert_ne.
  - intros ->.
    destruct (bool_decide _ && bool_decide _); [| done].
    by rewrite lookup_insert_ne.
Qed.

Lemma default_plot_kwargs_keeps_caller_witness :
  default_plot_kwargs true "#e6e6fa" {["color_scheme" := PStr "golden"]} =
  {["color_scheme" := PStr "golden"]} /\
  default_plot_kwargs false "#e6e6fa" {["facecolors" := PStr "red"]}
    !! "facecolors" = Some (PStr "red") /\
  default_plot_kwargs false "#e6e6fa" {["facecolors" := PStr "red"]}
    !! "color" = Some (PStr "#e6e6fa") /\
  default_plot_kwargs true "#e6e6fa" {["facecolors" := PStr "red"]}
    !! "facecolors" = Some (PStr "#e6e6fa").
Proof.
  split; [| split; [| split]].
  - apply (default_plot_kwargs_keeps_caller true "#e6e6fa"
             {["color_scheme" := PStr "golden"]}).
    right. by rewrite lookup_singleton_eq.
  - rewrite (proj2 (proj2 (proj2 (default_plot_kwargs_keeps_caller false
                                    "#e6e6fa" {["facecolors" := PStr "red"]})))
               eq_refl).
    by rewrite lookup_singleton_eq.
  - by apply (proj1 (proj2 (default_plot_kwargs_keeps_caller false
                              "#e6e6fa" {["facecolors" := PStr "red"]}))).
  - by apply (proj1 (proj2 (default_plot_kwargs_keeps_caller true
                              "#e6e6fa" {["facecolors" := PStr "red"]}))).
Defined.

Lemma evenly_spaced_between (start stop : R) (num : Z) (i : nat) (v : R) :
  (1 <= num)%Z ->
  evenly_spaced start stop num !! i = Some v ->
  (Rmin start stop <= v <= Rmax start stop)%R.
Proof.
  intros Hn Hv.
  assert (Hi : (i < Z.to_nat num)%nat).
  { apply lookup_lt_Some in Hv. by rewrite evenly_spaced_length in Hv. }
  rewrite evenly_spaced_lookup in Hv by done. injection Hv as <-.
  case_bool_decide as H1.
  { unfold Rmin, Rmax. destruct (Rle_dec start stop); lra. }
  assert (Hd : (0 < IZR (num - 1))%R) by (apply IZR_lt; lia).
  assert (Hi0 : (0 <= INR i)%R) by apply pos_INR.
  assert (Hid : (INR i <= IZR (num - 1))%R).
  { rewrite INR_IZR_INZ. apply IZR_le. lia. }
  set (d := IZR (num - 1)) in *. set (x := INR i) in *.
  assert (Hq : ((stop - start) / d * d = stop - start)%R) by (field; lra).
  set (q := ((stop - start) / d)%R) in *.
  unfold Rmin, Rmax. destruct (Rle_dec start stop) as [Hle | Hgt].
  - assert (0 <= q)%R.
    { unfold q. apply Rmult_le_pos; [lra |].
      left. by apply Rinv_0_lt_compat. }
    nra.
  - assert (q <= 0)%R.
    { unfold q. unfold Rdiv.
      assert (0 < / d)%R by (by apply Rinv_0_lt_compat). nra. }
    nra.
Qed.

(** X15: every frame hands the generator exactly one parameter dict, the
    static parameters with the animated one set to a value that lies
    between the start and the end value. *)
Theorem animated_value_in_range {pattern : Type}
  (pattern_generator : gmap string pyval -> exn + pattern)
  (static_params : gmap string pyval) (animated_param_name : string)
  (param_start_value param_end_value : R)
  (plot_function : pattern -> gmap string pyval -> exn + unit)
  (frames : Z) (is_3d : bool) (default_plot_color : string)
  (plot_kwargs : gmap string pyval) (ani : FuncAnimation pattern)
  (i : nat) (frame : M (draw pattern) unit) :
  animate_pattern_evolution pattern_generator static_params
    animated_param_name param_start_value param_end_value plot_function
    frames is_3d default_plot_color plot_kwargs = inr ani ->
  render ani !! i = Some frame ->
  exists v,
    generated_with frame = [<[animated_param_name := PFloat v]> static_params] /\
    (Rmin param_start_value param_end_value <= v
     <= Rmax param_start_value param_end_value)%R.
Proof.
  intros Hani Hframe.
  assert (Hn : (1 <= frames)%Z).
  { destruct (decide (1 <= frames)%Z) as [H | H]; [done |].
    unfold animate_pattern_evolution, linspace in Hani.
    destruct (frames <? 0)%Z eqn:Hneg; [done |].
    apply Z.ltb_ge in Hneg. assert (frames = 0%Z) as -> by lia.
    simpl in Hani. injection Hani as <-. done. }
  unfold animate_pattern_evolution in Hani.
  rewrite linspace_evenly_spaced in Hani by done. injection Hani as <-.
  unfold render in Hframe. simpl in Hframe.
  pose proof (frames_from pattern_generator plot_function static_params
                animated_param_name
                (default_plot_kwargs is_3d default_plot_color plot_kwargs) []
                (evenly_spaced param_start_value param_end_value frames))
    as Hfr.
  simpl in Hfr. rewrite evenly_spaced_length in Hfr by done.
  unfold range in Hframe. rewrite Hfr in Hframe.
  change (map ?f ?l) with (f <$> l) in Hframe.
  rewrite list_lookup_fmap in Hframe.
  destruct (evenly_spaced _ _ _ !! i) as [v |] eqn:Hv; [| done].
  injection Hframe as <-. exists v. split.
  - unfold frame_for, generated_with, events.
    by destruct (pattern_generator _).
  - by eapply evenly_spaced_between.
Qed.

Lemma animated_value_in_range_witness :
  exists frame v,
    generated_with (pattern := list shape) frame
      = [<["radius" := PFloat v]> ∅] /\
    (Rmin 1 2 <= v <= Rmax 1 2)%R.
Proof.
  set (kwargs := default_plot_kwargs false "#e6e6fa" ∅).
  set (ani := {| ani_func := update example_generator example_plot ∅ "radius"
                               (evenly_spaced 1 2 3) kwargs;
                 ani_frames := range 3 |}).
  assert (Hani : animate_pattern_evolution example_generator ∅ "radius" 1 2
                   example_plot 3 false "#e6e6fa" ∅ = inr ani).
  { unfold animate_pattern_evolution.
    by rewrite linspace_evenly_spaced by lia. }
  destruct (animated_value_in_range example_generator ∅ "radius" 1 2
              example_plot 3 false "#e6e6fa" ∅ ani 1
              (ani_func ani 1%nat) Hani eq_refl) as (v & Hgen & Hv).
  by exists (ani_func ani 1%nat), v.
Defined.

Lemma evenly_spaced_reversed (start stop : R) (num : Z) :
  (2 <= num)%Z ->
  evenly_spaced stop start num = reverse (evenly_spaced start stop num).
Proof.
  intros Hn. apply list_eq. intros i.
  destruct (decide (i < Z.to_nat num)%nat) as [Hi | Hi].
  - rewrite reverse_lookup by (rewrite evenly_spaced_length by lia; done).
    rewrite evenly_spaced_length by lia.
    rewrite !evenly_spaced_lookup by lia.
    rewrite bool_decide_eq_false_2 by lia. f_equal.
    assert (Hd : (0 < IZR (num - 1))%R) by (apply IZR_lt; lia).
    assert (Hk : INR (Z.to_nat num - S i) = (IZR (num - 1) - INR i)%R).
    { rewrite minus_INR by lia. rewrite S_INR, INR_to_nat by lia.
      rewrite minus_IZR. lra. }
    rewrite Hk. field. lra.
  - rewrite !lookup_ge_None_2; [done | |].
    + rewrite length_reverse, evenly_spaced_length by lia. lia.
    + rewrite evenly_spaced_length by lia. lia.
Qed.

Lemma frames_of_values {pattern : Type}
  (pattern_generator : gmap string pyval -> exn + pattern)
  (plot_function : pattern -> gmap string pyval -> exn + unit)
  (static_params : gmap string pyval) (animated_param_name : string)
  (plot_kwargs : gmap string pyval) (param_values : list R) (n : nat) :
  length param_values = n ->
  map (update pattern_generator plot_function static_params
         animated_param_name param_values plot_kwargs) (seq 0 n) =
  map (frame_for pattern_generator plot_function static_params
         animated_param_name plot_kwargs) param_values.
Proof.
  intros <-.
  exact (frames_from pattern_generator plot_function static_params
           animated_param_name plot_kwargs [] param_values).
Qed.

(** X16: with two frames or more, exchanging the start and the end value
    gives the same frames in the opposite order. *)
Theorem animation_reversed {pattern : Type}
  (pattern_generator : gmap string pyval -> exn + pattern)
  (static_params : gmap string pyval) (animated_param_name : string)
  (param_start_value param_end_value : R)
  (plot_function : pattern -> gmap string pyval -> exn + unit)
  (frames : Z) (is_3d : bool) (default_plot_color : string)
  (plot_kwargs : gmap string pyval) :
  (2 <= frames)%Z ->
  exists forth back,
    animate_pattern_evolution pattern_generator static_params
      animated_param_name param_start_value param_end_value plot_function
      frames is_3d default_plot_color plot_kwargs = inr forth /\
    animate_pattern_evolution pattern_generator static_params
      animated_param_name param_end_value param_start_value plot_function
      frames is_3d default_plot_color plot_kwargs = inr back /\
    render back = reverse (render forth).
Proof.
  intros Hn. unfold animate_pattern_evolution.
  rewrite !linspace_evenly_spaced by lia.
  do 2 eexists. split; [reflexivity |]. split; [reflexivity |].
  unfold render, range. simpl.
  rewrite !frames_of_values by (by apply evenly_spaced_length; lia).
  rewrite evenly_spaced_reversed by done.
  change (map ?f ?l) with (f <$> l). apply fmap_reverse.
Qed.

Lemma animation_reversed_witness :
  exists forth back,
    animate_pattern_evolution example_generator ∅ "radius" 1 2 example_plot
      4 false "#e6e6fa" ∅ = inr forth /\
    animate_pattern_evolution example_generator ∅ "radius" 2 1 example_plot
      4 false "#e6e6fa" ∅ = inr back /\
    render back = reverse (render forth).
Proof.
  apply (animation_reversed example_generator ∅ "radius" 1 2 example_plot
           4 false "#e6e6fa" ∅).
  lia.
Defined.

(** ** Saving or showing *)

Lemma string_length_append (p s : string) :
  String.length (p +:+ s) = (String.length p + String.length s)%nat.
Proof. induction p as [| c p IH]; simpl; [done | by rewrite IH]. Qed.

Lemma substring_whole (s : string) :
  String.substring 0 (String.length s) s = s.
Proof. induction s as [| c s IH]; simpl; [done | by rewrite IH]. Qed.

Lemma substring_after (p s : string) :
  String.substring (String.length p) (String.length s) (p +:+ s) = s.
Proof.
  induction p as [| c p IH]; simpl; [apply substring_whole | exact IH].
Qed.

Lemma substring_split (s : string) (k : nat) :
  (k <= String.length s)%nat ->
  s = String.substring 0 k s +:+ String.substring k (String.length s - k) s.
Proof.
  revert k. induction s as [| c s IH]; intros k Hk; simpl in *.
  - destruct k; [done | lia].
  - destruct k as [| k]; simpl.
    + by rewrite substring_whole.
    + change (String c ?x +:+ ?y) with (String c (x +:+ y)).
      f_equal. apply IH. lia.
Qed.

(** [endswith] holds of the strings that end with the suffix. *)
Lemma endswith_spec (s suffix : string) :
  endswith s suffix = true <-> exists p, s = p +:+ suffix.
Proof.
  unfold endswith. rewrite andb_true_iff, Nat.leb_le, String.eqb_eq. split.
  - intros [Hle Hsub].
    exists (String.substring 0 (String.length s - String.length suffix) s).
    pose proof (substring_split s (String.length s - String.length suffix)
                  ltac:(lia)) as H.
    replace (String.length s - (String.length s - String.length suffix))%nat
      with (String.length suffix) in H by lia.
    by rewrite Hsub in H.
  - intros [p ->]. rewrite string_length_append. split; [lia |].
    replace (String.length p + String.length suffix - String.length suffix)%nat
      with (String.length p) by lia.
    apply substring_after.
Qed.

(** X17: an animation is written with the writer [pillow] exactly when
    its file name ends with [.gif], in lower case, and with [ffmpeg]
    otherwise. *)
Theorem writer_name_by_suffix (output_filename : string) :
  (writer_name output_filename = "pillow" <->
   exists p, output_filename = p +:+ ".gif") /\
  (writer_name output_filename = "ffmpeg" <->
   ~ exists p, output_filename = p +:+ ".gif").
Proof.
  unfold writer_name. rewrite <- !endswith_spec.
  destruct (endswith output_filename ".gif"); split; split; done.
Qed.

(** X18: the end of a driver never raises.  Without a file name, or with
    the empty one, it shows the animation and saves nothing; with a file
    name it tries once to save, with the writer chosen from the name, and
    prints the confirmation or, when saving raises, the error, and does
    not show the animation. *)
Theorem save_or_show_never_raises
  (save : string -> string -> Z -> exn + unit)
  (output_filename : option string) (fps : Z) :
  save_or_show save output_filename fps =
  (match output_filename with
   | Some filename =>
       if String.eqb filename "" then [Show]
       else [Save filename (writer_name filename) fps;
             match save filename (writer_name filename) fps with
             | inl e => PrintSaveError e (writer_name filename)
             | inr _ => PrintSaved filename
             end]
   | None => [Show]
   end, inr tt).
Proof.
  unfold save_or_show, truthy.
  destruct output_filename as [filename |]; [| done].
  destruct (String.eqb filename ""); simpl; [done |].
  unfold try_except, emit, lift, bind, ret.
  by destruct (save filename (writer_name filename) fps) as [e | []].
Qed.

(** ** animate_3d_rotation *)

Section Rotation.
Context {shape_data : Type}.
Variable shape_generator : gmap string pyval -> exn + shape_data.
Variable static_params : gmap string pyval.
Variable plot_function : shape_data -> gmap string pyval -> exn + unit.
Variable plot_kwargs : gmap string pyval.

Lemma update_rotation_run (shape : shape_data) (frames : Z) (frame_num : nat) :
  frames <> 0%Z ->
  plot_function shape plot_kwargs = inr tt ->
  update_rotation plot_function shape plot_kwargs frames frame_num =
  ([Draw AxClear; Draw (Plot shape plot_kwargs);
    ViewInit (INR frame_num / IZR frames * 360)], inr tt).
Proof.
  intros Hn Hplot. unfold update_rotation, emit, lift, bind, ret, raise.
  rewrite Hplot. simpl. by rewrite bool_decide_eq_false_2.
Qed.
End Rotation.

Lemma saved_frames_accepted (frames : Z) :
  (0 <= frames <= sys_maxsize)%Z -> saved_frames_check frames = inr tt.
Proof.
  intros Hframes. unfold saved_frames_check.
  rewrite (proj2 (Z.ltb_ge frames 0)) by lia.
  by rewrite (proj2 (Z.ltb_ge sys_maxsize frames)) by lia.
Qed.

(** X19: when the shape generator and the first plot return and
    [FuncAnimation] accepts the number of frames, which it does from 0 to
    [sys.maxsize], the rotation driver has invoked the generator exactly
    once, before any frame, and returns an animation of [frames] frames;
    every frame plots the one shape again, with the same keyword
    arguments, sets the azimuth [frame_num / frames * 360], and raises
    nothing; no frame invokes the generator. *)
Theorem rotation_frames {shape_data : Type}
  (shape_generator : gmap string pyval -> exn + shape_data)
  (static_params : gmap string pyval)
  (plot_function : shape_data -> gmap string pyval -> exn + unit)
  (frames : Z) (rotation_axis : point3) (plot_kwargs : gmap string pyval)
  (shape : shape_data) :
  shape_generator static_params = inr shape ->
  plot_function shape plot_kwargs = inr tt ->
  (0 <= frames <= sys_maxsize)%Z ->
  exists ani,
    animate_3d_rotation shape_generator static_params plot_function frames
      rotation_axis plot_kwargs =
    ([Draw (Generate static_params); Draw (Plot shape plot_kwargs)], inr ani) /\
    length (render_view ani) = Z.to_nat frames /\
    (forall k, (k < Z.to_nat frames)%nat ->
       render_view ani !! k =
       Some ([Draw AxClear; Draw (Plot shape plot_kwargs);
              ViewInit (INR k / IZR frames * 360)], inr tt)) /\
    (forall frame, frame ∈ render_view ani -> generations frame = []).
Proof.
  intros Hgen Hplot Hframes.
  unfold animate_3d_rotation, emit, lift, bind, ret.
  rewrite Hgen. simpl. rewrite Hplot. simpl.
  rewrite saved_frames_accepted by done.
  eexists. split; [reflexivity |].
  unfold render_view. simpl.
  assert (Hk : forall k, (k < Z.to_nat frames)%nat ->
            map (update_rotation plot_function shape plot_kwargs frames)
              (range frames) !! k =
            Some ([Draw AxClear; Draw (Plot shape plot_kwargs);
                   ViewInit (INR k / IZR frames * 360)], inr tt)).
  { intros k Hlt.
    change (map ?f ?l) with (f <$> l). rewrite list_lookup_fmap.
    unfold range. rewrite lookup_seq_lt by done. simpl.
    rewrite update_rotation_run; [done | lia | done]. }
  split; [by rewrite length_map, range_length |].
  split; [exact Hk |].
  intros frame Hin. apply list_elem_of_lookup in Hin as [k Hin].
  assert (Hlt : (k < Z.to_nat frames)%nat).
  { apply lookup_lt_Some in Hin. by rewrite length_map, range_length in Hin. }
  assert (Hf : Some frame =
               Some ([Draw AxClear; Draw (Plot shape plot_kwargs);
                      ViewInit (INR k / IZR frames * 360)%R], inr tt))
    by (etrans; [symmetry; exact Hin | exact (Hk k Hlt)]).
  by injection Hf as ->.
Qed.

Lemma rotation_frames_witness :
  exists ani,
    animate_3d_rotation (fun _ => Shapes.create_octahedron (0, 0, 0)%R 1)
      ∅ (fun _ _ => inr tt) 120 (0, 1, 0)%R ∅ =
    ([Draw (Generate ∅); Draw (Plot example_octahedron ∅)], inr ani) /\
    length (render_view ani) = 120%nat.
Proof.
  destruct (rotation_frames (fun _ => Shapes.create_octahedron (0, 0, 0)%R 1)
              ∅ (fun _ _ => inr tt) 120 (0, 1, 0)%R ∅ example_octahedron)
    as (ani & Hrun & Hlen & _).
  - unfold Shapes.create_octahedron, example_octahedron.
    by destruct (Rle_dec 1 0); [lra |].
  - done.
  - split; [lia | by vm_compute].
  - by exists ani.
Defined.

(** X20: the azimuths of the frames start at 0, grow by [360 / frames]
    from one frame to the next and stay below 360: the turn is not closed
    by a last frame equal to the first. *)
Theorem rotation_azimuths {shape_data : Type}
  (plot_function : shape_data -> gmap string pyval -> exn + unit)
  (shape : shape_data) (plot_kwargs : gmap string pyval) (frames : Z)
  (k : nat) :
  (k < Z.to_nat frames)%nat ->
  plot_function shape plot_kwargs = inr tt ->
  let azim := fun i : nat => (INR i / IZR frames * 360)%R in
  azimuths (update_rotation plot_function shape plot_kwargs frames k)
    = [azim k] /\
  azim 0%nat = 0%R /\
  (azim (S k) - azim k = 360 / IZR frames)%R /\
  (0 <= azim k < 360)%R.
Proof.
  intros Hk Hplot azim. subst azim.
  assert (Hn : (1 <= frames)%Z) by lia.
  assert (Hpos : (0 < IZR frames)%R) by (apply IZR_lt; lia).
  rewrite update_rotation_run by (done || lia).
  split; [done |]. cbn beta.
  split; [simpl; field; lra |].
  split; [rewrite S_INR; field; lra |].
  assert (Hk0 : (0 <= INR k)%R) by apply pos_INR.
  assert (Hkn : (INR k < IZR frames)%R).
  { rewrite INR_IZR_INZ. apply IZR_lt. lia. }
  assert (Hinv : (0 < / IZR frames)%R) by (by apply Rinv_0_lt_compat).
  assert (Hq : (INR k / IZR frames < 1)%R).
  { apply (Rmult_lt_reg_r (IZR frames)); [done |].
    replace (INR k / IZR frames * IZR frames)%R with (INR k) by (field; lra).
    lra. }
  assert (Hq0 : (0 <= INR k / IZR frames)%R).
  { unfold Rdiv. apply Rmult_le_pos; lra. }
  split; lra.
Qed.

Lemma rotation_azimuths_witness :
  (INR 3 / 120 * 360 - INR 2 / 120 * 360 = 360 / 120)%R.
Proof.
  apply (rotation_azimuths (fun (_ : solid_data) _ => inr tt)
           example_octahedron ∅ 120 2); [simpl; lia | done].
Defined.

(** X21: the rotation driver raises only what the shape generator raised,
    in which case nothing was plotted, what the first plot raised, or what
    [FuncAnimation] raises for a number of frames it refuses, a negative
    one or one beyond [sys.maxsize], after the shape was generated and
    plotted.  With a negative number of frames and a generator and a plot
    that return it does raise, a [ValueError]; with no frames at all it
    raises nothing. *)
Theorem rotation_setup_failure {shape_data : Type}
  (shape_generator : gmap string pyval -> exn + shape_data)
  (static_params : gmap string pyval)
  (plot_function : shape_data -> gmap string pyval -> exn + unit)
  (frames : Z) (rotation_axis : point3) (plot_kwargs : gmap string pyval) :
  let m := animate_3d_rotation shape_generator static_params plot_function
             frames rotation_axis plot_kwargs in
  (forall e, outcome m = inl e ->
     (shape_generator static_params = inl e /\
      events m = [Draw (Generate static_params)]) \/
     (exists shape,
        shape_generator static_params = inr shape /\
        plot_function shape plot_kwargs = inl e /\
        events m = [Draw (Generate static_params);
                    Draw (Plot shape plot_kwargs)]) \/
     (exists shape,
        shape_generator static_params = inr shape /\
        plot_function shape plot_kwargs = inr tt /\
        events m = [Draw (Generate static_params);
                    Draw (Plot shape plot_kwargs)] /\
        ((frames < 0)%Z /\ e = ValueError "maxlen must be non-negative" \/
         (sys_maxsize < frames)%Z /\
         e = OverflowError "Python int too large to convert to C ssize_t"))) /\
  (forall shape,
     shape_generator static_params = inr shape ->
     plot_function shape plot_kwargs = inr tt ->
     (frames < 0)%Z ->
     m = ([Draw (Generate static_params); Draw (Plot shape plot_kwargs)],
          inl (ValueError "maxlen must be non-negative"))).
Proof.
  intros m. subst m.
  unfold animate_3d_rotation, emit, lift, bind, ret, outcome, events.
  split.
  - intros e.
    destruct (shape_generator static_params) as [e' | shape]; simpl.
    { intros [= <-]. by left. }
    destruct (plot_function shape plot_kwargs) as [e' | []] eqn:Hplot; simpl.
    { intros [= <-]. right. left. by exists shape. }
    unfold saved_frames_check.
    destruct (frames <? 0)%Z eqn:Hneg; simpl.
    { intros [= <-]. right. right. exists shape.
      apply Z.ltb_lt in Hneg. split; [done |]. split; [done |].
      split; [done |]. by left. }
    destruct (sys_maxsize <? frames)%Z eqn:Hbig; simpl; [| done].
    intros [= <-]. right. right. exists shape.
    apply Z.ltb_lt in Hbig. split; [done |]. split; [done |].
    split; [done |]. by right.
  - intros shape -> Hplot Hneg. simpl. rewrite Hplot. simpl.
    unfold saved_frames_check. by rewrite (proj2 (Z.ltb_lt frames 0)).
Qed.

Lemma rotation_setup_failure_witness :
  events (animate_3d_rotation
            (fun _ => Shapes.create_octahedron (0, 0, 0)%R (-1))
            ∅ (fun _ _ => inr tt) 120 (0, 1, 0)%R ∅) =
  [Draw (Generate ∅)] /\
  animate_3d_rotation (fun _ => Shapes.create_octahedron (0, 0, 0)%R 1)
    ∅ (fun _ _ => inr tt) (-2) (0, 1, 0)%R ∅ =
  ([Draw (Generate ∅); Draw (Plot example_octahedron ∅)],
   inl (ValueError "maxlen must be non-negative")).
Proof.
  split.
  - destruct (proj1 (rotation_setup_failure
                       (fun _ => Shapes.create_octahedron (0, 0, 0)%R (-1))
                       ∅ (fun _ _ => inr tt) 120 (0, 1, 0)%R ∅)
                (InvalidParameter "radius"))
      as [[_ H] | [(shape & H & _) | (shape & H & _)]].
    + unfold animate_3d_rotation, Shapes.create_octahedron.
      by destruct (Rle_dec (-1) 0); [| lra].
    + exact H.
    + unfold Shapes.create_octahedron in H.
      destruct (Rle_dec (-1) 0); [done | lra].
    + unfold Shapes.create_octahedron in H.
      destruct (Rle_dec (-1) 0); [done | lra].
  - apply (proj2 (rotation_setup_failure
                    (fun _ => Shapes.create_octahedron (0, 0, 0)%R 1)
                    ∅ (fun _ _ => inr tt) (-2) (0, 1, 0)%R ∅)).
    + unfold Shapes.create_octahedron, example_octahedron.
      by destruct (Rle_dec 1 0); [lra |].
    + done.
    + lia.
Defined.
